(** * A shallow embedding of [server.js], the schools backend

    The server is one Express application: an upload middleware
    ([multer]), three routes over a MySQL table [schools], a catch-all
    error handler and a bootstrap sequence.  Every handler of the source
    is transcribed below as a computation in a small state-and-exception
    monad over an explicit [World] (the connection pool, the table, the
    console, the listening socket).  Library calls the source makes
    ([path.extname], [RegExp.prototype.test], [String.prototype.toLowerCase],
    the multer pipeline, the SQL statements) are modelled next to the
    code that calls them. *)

From Stdlib Require Import ZArith String Ascii List Lia DecimalString.
From stdpp Require Import gmap strings list sorting.

Open Scope Z_scope.
Open Scope string_scope.

(** ** JavaScript strings

    Strings are ASCII strings; [toLowerCase] folds [A-Z] only. *)

Module Js.

Definition lower_ascii (c : ascii) : ascii :=
  let n := nat_of_ascii c in
  if (Nat.leb 65 n && Nat.leb n 90)%bool then ascii_of_nat (n + 32) else c.

Fixpoint toLowerCase (s : string) : string :=
  match s with
  | EmptyString => EmptyString
  | String c r => String (lower_ascii c) (toLowerCase r)
  end.

(** A regular expression that is an alternation of literals, such as
    [/jpeg|jpg|png|gif/], is the list of its alternatives.  It carries no
    anchor, so [test] searches every position of the subject. *)
Definition Regex := list string.

Definition match_here (re : Regex) (s : string) : bool :=
  existsb (fun alt => String.prefix alt s) re.

Fixpoint test (re : Regex) (s : string) : bool :=
  match_here re s ||
  match s with
  | EmptyString => false
  | String _ r => test re r
  end.

(** [str.slice(a, b)] for [0 <= a <= b]. *)
Definition slice (s : string) (a b : Z) : string :=
  String.substring (Z.to_nat a) (Z.to_nat (b - a)) s.

Fixpoint chars (s : string) : list ascii :=
  match s with
  | EmptyString => []
  | String c r => c :: chars r
  end.

End Js.

(** ** [path.extname] (POSIX)

    Node scans the path from its last character towards the first and
    stops at the separator that ends the last component. *)

Module Path.

Record Scan := {
  startDot : Z;
  startPart : Z;
  end_ : Z;
  matchedSlash : bool;
  preDotState : Z
}.

Definition scan0 : Scan :=
  {| startDot := -1; startPart := 0; end_ := -1;
     matchedSlash := true; preDotState := 0 |}.

Definition CHAR_FORWARD_SLASH : ascii := "/"%char.
Definition CHAR_DOT : ascii := "."%char.

(** [scan rev_path i st]: the loop [for (i = len - 1; i >= 0; --i)], on
    the characters of the path in reverse order, [i] being the index of
    the head. *)
Fixpoint scan (rev_path : list ascii) (i : Z) (st : Scan) : Scan :=
  match rev_path with
  | [] => st
  | code :: rest =>
    if Ascii.eqb code CHAR_FORWARD_SLASH then
      if negb (matchedSlash st) then
        {| startDot := startDot st; startPart := i + 1; end_ := end_ st;
           matchedSlash := matchedSlash st; preDotState := preDotState st |}
      else scan rest (i - 1) st
    else
      let st1 :=
        if Z.eqb (end_ st) (-1) then
          {| startDot := startDot st; startPart := startPart st;
             end_ := i + 1; matchedSlash := false;
             preDotState := preDotState st |}
        else st in
      let st2 :=
        if Ascii.eqb code CHAR_DOT then
          if Z.eqb (startDot st1) (-1) then
            {| startDot := i; startPart := startPart st1; end_ := end_ st1;
               matchedSlash := matchedSlash st1;
               preDotState := preDotState st1 |}
          else if negb (Z.eqb (preDotState st1) 1) then
            {| startDot := startDot st1; startPart := startPart st1;
               end_ := end_ st1; matchedSlash := matchedSlash st1;
               preDotState := 1 |}
          else st1
        else if negb (Z.eqb (startDot st1) (-1)) then
          {| startDot := startDot st1; startPart := startPart st1;
             end_ := end_ st1; matchedSlash := matchedSlash st1;
             preDotState := -1 |}
        else st1 in
      scan rest (i - 1) st2
  end.

Definition extname (path : string) : string :=
  let st := scan (rev (Js.chars path)) (Z.of_nat (String.length path) - 1)
                 scan0 in
  if (Z.eqb (startDot st) (-1) || Z.eqb (end_ st) (-1) ||
      Z.eqb (preDotState st) 0 ||
      (Z.eqb (preDotState st) 1 && Z.eqb (startDot st) (end_ st - 1) &&
       Z.eqb (startDot st) (startPart st + 1)))%bool
  then ""
  else Js.slice path (startDot st) (end_ st).

End Path.

(** ** Errors

    [new Error(message)] and multer's [MulterError(code)], the two kinds
    of exception the server distinguishes with [instanceof]. *)

Inductive JsError :=
| Error (message : string)
| MulterError (code : string) (message : string).

Definition message_of (e : JsError) : string :=
  match e with
  | Error m => m
  | MulterError _ m => m
  end.

(** ** File intake *)

(** A file part of a multipart request, as busboy announces it, with the
    number of bytes its stream will deliver. *)
Record FilePart := {
  fieldname : string;
  originalname : string;
  mimetype : string;
  stream_bytes : Z
}.

Definition allowedTypes : Js.Regex := ["jpeg"; "jpg"; "png"; "gif"].

(** [fileFilter] calls back with [(null, true)] or with an error. *)
Definition fileFilter (file : FilePart) : JsError + bool :=
  let extname :=
    Js.test allowedTypes (Js.toLowerCase (Path.extname (originalname file))) in
  let mimetype := Js.test allowedTypes (mimetype file) in
  if (mimetype && extname)%bool then inr true
  else inl (Error "Only image files are allowed").

(** ** Values, rows and the wire format *)

(** The JavaScript values a row object or a bind parameter holds. *)
Inductive JsValue :=
| JsNull
| JsNumber (n : Z)
| JsString (s : string).

Definition show_Z (n : Z) : string := NilZero.string_of_int (Z.to_int n).

(** [`${v}`] *)
Definition to_string (v : JsValue) : string :=
  match v with
  | JsNull => "null"
  | JsNumber n => show_Z n
  | JsString s => s
  end.

(** The condition of [v ? a : b]; a missing property is [undefined]. *)
Definition truthy (v : option JsValue) : bool :=
  match v with
  | None => false
  | Some JsNull => false
  | Some (JsNumber n) => negb (Z.eqb n 0)
  | Some (JsString s) => negb (String.eqb s "")
  end.

(** A row of the table [schools], as the [CREATE TABLE] statement of
    [initializeDatabase] declares it: [image] and [created_at] are the
    two columns without [NOT NULL]. *)
Module Row.
Record t := {
  id : Z;
  name : string;
  address : string;
  city : string;
  state : string;
  contact : Z;
  image : option string;
  email_id : string;
  created_at : option Z
}.
End Row.

Definition nullable {A} (f : A → JsValue) (c : option A) : JsValue :=
  match c with
  | Some a => f a
  | None => JsNull
  end.

(** The object the driver builds for a row: one property per column. *)
Definition to_object (r : Row.t) : gmap string JsValue :=
  <["id" := JsNumber (Row.id r)]>
  (<["name" := JsString (Row.name r)]>
  (<["address" := JsString (Row.address r)]>
  (<["city" := JsString (Row.city r)]>
  (<["state" := JsString (Row.state r)]>
  (<["contact" := JsNumber (Row.contact r)]>
  (<["image" := nullable JsString (Row.image r)]>
  (<["email_id" := JsString (Row.email_id r)]>
  (<["created_at" := nullable JsNumber (Row.created_at r)]> ∅)))))))).

(** The file multer stored, as it appears in [req.file]. *)
Record MulterFile := {
  destination : string;
  filename : string
}.

Record Request := {
  protocol : string;              (* req.protocol *)
  host : string;                  (* req.get("host") *)
  params_id : Z;                  (* req.params.id, as MySQL reads it *)
  body : gmap string string;      (* req.body: the text fields of the form *)
  part : option FilePart;         (* the file part of the multipart body *)
  file : option MulterFile        (* req.file *)
}.

Definition with_file (req : Request) (f : MulterFile) : Request :=
  {| protocol := protocol req; host := host req; params_id := params_id req;
     body := body req; part := part req; file := Some f |}.

(** The JSON objects the server sends. *)
Inductive Json :=
| Created (success : bool) (message : string) (schoolId : Z)
| SchoolList (success : bool) (schools : list (gmap string JsValue))
| SchoolOne (success : bool) (school : gmap string JsValue)
| Failure (success : bool) (message : string) (error : option string).

Record Response := {
  status : Z;
  json : Json
}.

(** [res.status(code).json(body)] and [res.json(body)]. *)
Definition res_status_json (code : Z) (b : Json) : Response :=
  {| status := code; json := b |}.
Definition res_json (b : Json) : Response :=
  {| status := 200; json := b |}.

Definition success_of (b : Json) : bool :=
  match b with
  | Created s _ _ => s
  | SchoolList s _ => s
  | SchoolOne s _ => s
  | Failure s _ _ => s
  end.

(** ** The world: pool, table, console, socket *)

Inductive Statement :=
| CreateTableIfNotExists
| InsertSchool (params : list (option JsValue))
| SelectAllByCreatedAtDesc
| SelectById (id : Z).

Inductive QueryResult :=
| ResultSetHeader (insertId : Z)
| Rows (rows : list (gmap string JsValue)).

Inductive Event :=
| Acquired
| Released
| Executed (st : Statement)
| ConsoleLog (msg : string)
| ConsoleError (msg : string) (e : JsError)
| Listen.

Record World := {
  reachable : bool;                (* pool.getConnection() resolves *)
  may_create : bool;               (* the account may run CREATE TABLE *)
  schools : option (list Row.t);   (* the table; None while it does not exist *)
  auto_increment : Z;
  current_timestamp : Z;
  date_now : Z;                    (* Date.now() *)
  random : Z;                      (* Math.round(Math.random() * 1e9) *)
  checked_out : nat;               (* connections acquired and not released *)
  trace : list Event;
  listening : bool
}.

Definition emit (ev : Event) (w : World) : World :=
  {| reachable := reachable w; may_create := may_create w;
     schools := schools w; auto_increment := auto_increment w;
     current_timestamp := current_timestamp w; date_now := date_now w;
     random := random w; checked_out := checked_out w;
     trace := trace w ++ [ev]; listening := listening w |}.

Definition set_checked_out (n : nat) (w : World) : World :=
  {| reachable := reachable w; may_create := may_create w;
     schools := schools w; auto_increment := auto_increment w;
     current_timestamp := current_timestamp w; date_now := date_now w;
     random := random w; checked_out := n;
     trace := trace w; listening := listening w |}.

Definition set_table (tbl : list Row.t) (next : Z) (w : World) : World :=
  {| reachable := reachable w; may_create := may_create w;
     schools := Some tbl; auto_increment := next;
     current_timestamp := current_timestamp w; date_now := date_now w;
     random := random w; checked_out := checked_out w;
     trace := trace w; listening := listening w |}.

Definition set_listening (w : World) : World :=
  {| reachable := reachable w; may_create := may_create w;
     schools := schools w; auto_increment := auto_increment w;
     current_timestamp := current_timestamp w; date_now := date_now w;
     random := random w; checked_out := checked_out w;
     trace := trace w; listening := true |}.

(** ** The monad of handlers: state and exceptions *)

Definition M (A : Type) : Type := World → (JsError + A) * World.

#[global] Instance M_ret : MRet M := λ A a w, (inr a, w).

#[global] Instance M_bind : MBind M := λ A B k m w,
  match m w with
  | (inl e, w') => (inl e, w')
  | (inr a, w') => k a w'
  end.

Definition throw {A} (e : JsError) : M A := λ w, (inl e, w).

(** [try { body } catch (error) { handler }] *)
Definition try_catch {A} (body : M A) (handler : JsError → M A) : M A :=
  λ w, match body w with
       | (inl e, w') => handler e w'
       | (inr a, w') => (inr a, w')
       end.

Definition tell (ev : Event) : M unit := λ w, (inr tt, emit ev w).
Definition ask {A} (f : World → A) : M A := λ w, (inr (f w), w).

Definition console_log (msg : string) : M unit := tell (ConsoleLog msg).
Definition console_error (msg : string) (e : JsError) : M unit :=
  tell (ConsoleError msg e).

(** ** The connection pool *)

Inductive Connection := PoolConnection.

(** [pool.getConnection()] while the pool has a connection to give: the
    bound of the pool, and the wait of a request once every connection
    is checked out, are not modelled. *)
Definition getConnection : M Connection := λ w,
  if reachable w
  then (inr PoolConnection,
        emit Acquired (set_checked_out (S (checked_out w)) w))
  else (inl (Error "connect ECONNREFUSED"), w).

Definition release (connection : Connection) : M unit := λ w,
  (inr tt, emit Released (set_checked_out (Nat.pred (checked_out w)) w)).

(** ** The SQL statements *)

(** The integer a plain decimal numeral denotes: digits with an optional
    minus sign.  The other spellings MySQL converts (a leading plus,
    blanks, a fraction, an exponent) are not covered: the model refuses
    them. *)
Definition parse_int (s : string) : option Z :=
  Z.of_int <$> NilZero.int_of_string s.

(** What MySQL stores in a [TEXT NOT NULL] column; [None] is the
    rejection of [NULL]. *)
Definition as_text (v : JsValue) : option string :=
  match v with
  | JsNull => None
  | JsNumber n => Some (show_Z n)
  | JsString s => Some s
  end.

(** What MySQL (strict mode) stores in a [BIGINT NOT NULL] column. *)
Definition as_bigint (v : JsValue) : option Z :=
  n ← match v with
      | JsNull => None
      | JsNumber n => Some n
      | JsString s => parse_int s
      end;
  if (Z.leb (- 2 ^ 63) n && Z.ltb n (2 ^ 63))%bool then Some n else None.

(** mysql2 refuses [undefined] among the bind parameters before it
    sends anything. *)
Definition bound (params : list (option JsValue)) : JsError + list JsValue :=
  match mapM (M := option) (λ p, p) params with
  | Some vs => inr vs
  | None =>
    inl (Error "Bind parameters must not contain undefined. To pass SQL NULL specify JS null")
  end.

(** [INSERT INTO schools (name, address, city, state, contact, image,
    email_id) VALUES (?, ?, ?, ?, ?, ?, ?)]: the row it adds, with the
    next [AUTO_INCREMENT] id and [CURRENT_TIMESTAMP]. *)
Definition new_row (vs : list JsValue) (w : World) : option Row.t :=
  match vs with
  | [name; address; city; state; contact; image; email_id] =>
    name ← as_text name;
    address ← as_text address;
    city ← as_text city;
    state ← as_text state;
    contact ← as_bigint contact;
    email_id ← as_text email_id;
    Some {| Row.id := auto_increment w; Row.name := name;
            Row.address := address; Row.city := city; Row.state := state;
            Row.contact := contact; Row.image := as_text image;
            Row.email_id := email_id;
            Row.created_at := Some (current_timestamp w) |}
  | _ => None
  end.

(** [ORDER BY created_at DESC]: later timestamps first, [NULL] last. *)
Definition ts_le (a b : option Z) : Prop :=
  match a, b with
  | None, _ => True
  | Some _, None => False
  | Some x, Some y => (x ≤ y)%Z
  end.

Definition newer_first (r1 r2 : Row.t) : Prop :=
  ts_le (Row.created_at r2) (Row.created_at r1).

#[global] Instance ts_le_dec a b : Decision (ts_le a b).
Proof. destruct a, b; simpl; apply _. Defined.

#[global] Instance newer_first_dec r1 r2 : Decision (newer_first r1 r2).
Proof. unfold newer_first. apply _. Defined.

Definition has_id (id : Z) (r : Row.t) : Prop := Row.id r = id.

#[global] Instance has_id_dec id r : Decision (has_id id r).
Proof. unfold has_id. apply _. Defined.

Definition no_such_table : JsError := Error "Table 'schools' doesn't exist".

Definition execute (connection : Connection) (st : Statement)
  : M QueryResult := λ w,
  let w1 := emit (Executed st) w in
  match st with
  | CreateTableIfNotExists =>
    if may_create w then
      (inr (ResultSetHeader 0),
       match schools w with
       | Some _ => w1
       | None => set_table [] (auto_increment w) w1
       end)
    else (inl (Error "CREATE command denied to user"), w1)
  | InsertSchool params =>
    match bound params with
    | inl e => (inl e, w)
    | inr vs =>
      match schools w with
      | None => (inl no_such_table, w1)
      | Some tbl =>
        match new_row vs w with
        | None => (inl (Error "Column cannot be null"), w1)
        | Some row =>
          (inr (ResultSetHeader (Row.id row)),
           set_table (tbl ++ [row]) (auto_increment w + 1) w1)
        end
      end
    end
  | SelectAllByCreatedAtDesc =>
    match schools w with
    | None => (inl no_such_table, w1)
    | Some tbl => (inr (Rows (to_object <$> merge_sort newer_first tbl)), w1)
    end
  | SelectById id =>
    match schools w with
    | None => (inl no_such_table, w1)
    | Some tbl => (inr (Rows (to_object <$> filter (has_id id) tbl)), w1)
    end
  end.

Definition insertId (r : QueryResult) : Z :=
  match r with
  | ResultSetHeader n => n
  | Rows _ => 0
  end.

Definition rows_of (r : QueryResult) : list (gmap string JsValue) :=
  match r with
  | ResultSetHeader _ => []
  | Rows rs => rs
  end.

(** ** Multer: [upload.single("image")]

    Multer looks at a file part when its headers arrive: it checks the
    field name, then calls [fileFilter], and only then streams the bytes
    to the storage, where the [fileSize] limit can fire.  The first
    error aborts the request and is handed to [next]. *)

Definition fileSize : Z := 5 * 1024 * 1024.

Definition storage_destination : string := "public/schoolImages/".

Definition storage_filename (file : FilePart) : M string :=
  now ← ask date_now;
  rnd ← ask random;
  let uniqueSuffix := show_Z now +:+ "-" +:+ show_Z rnd in
  mret ("school-" +:+ uniqueSuffix +:+ Path.extname (originalname file)).

Definition upload_single (field : string) (req : Request) : M Request :=
  match part req with
  | None => mret req
  | Some f =>
    if String.eqb (originalname f) "" then mret req
    else if negb (String.eqb (fieldname f) field) then
      throw (MulterError "LIMIT_UNEXPECTED_FILE" "Unexpected field")
    else
      match fileFilter f with
      | inl err => throw err
      | inr false => mret req
      | inr true =>
        if Z.ltb fileSize (stream_bytes f) then
          throw (MulterError "LIMIT_FILE_SIZE" "File too large")
        else
          name ← storage_filename f;
          mret (with_file req {| destination := storage_destination;
                                 filename := name |})
      end
  end.

(** ** The routes *)

(** [POST /api/schools], after the upload middleware. *)
Definition post_schools (req : Request) : M Response :=
  try_catch
    (let name := body req !! "name" in
     let address := body req !! "address" in
     let city := body req !! "city" in
     let state := body req !! "state" in
     let contact := body req !! "contact" in
     let email_id := body req !! "email_id" in
     let image :=
       match file req with
       | Some f => JsString ("/schoolImages/" +:+ filename f)
       | None => JsNull
       end in
     connection ← getConnection;
     result ← execute connection
       (InsertSchool [JsString <$> name; JsString <$> address;
                      JsString <$> city; JsString <$> state;
                      JsString <$> contact; Some image;
                      JsString <$> email_id]);
     release connection;;
     mret (res_status_json 201
             (Created true "School added successfully" (insertId result))))
    (λ error,
     console_error "❌ Error adding school:" error;;
     mret (res_status_json 500
             (Failure false "Failed to add school" (Some (message_of error))))).

Definition baseUrl (req : Request) : string :=
  protocol req +:+ "://" +:+ host req.

(** [row.image ? `${baseUrl}${row.image}` : null] *)
Definition absolute_image (baseUrl : string) (row : gmap string JsValue)
  : JsValue :=
  if truthy (row !! "image")
  then JsString (baseUrl +:+ to_string (default JsNull (row !! "image")))
  else JsNull.

(** [GET /api/schools] *)
Definition get_schools (req : Request) : M Response :=
  try_catch
    (connection ← getConnection;
     result ← execute connection SelectAllByCreatedAtDesc;
     let rows := rows_of result in
     release connection;;
     let baseUrl := baseUrl req in
     let schools :=
       (λ row, <["image" := absolute_image baseUrl row]> row) <$> rows in
     mret (res_json (SchoolList true schools)))
    (λ error,
     console_error "❌ Error fetching schools:" error;;
     mret (res_status_json 500
             (Failure false "Failed to fetch schools"
                      (Some (message_of error))))).

(** [GET /api/schools/:id] *)
Definition get_school (req : Request) : M Response :=
  try_catch
    (let id := params_id req in
     connection ← getConnection;
     result ← execute connection (SelectById id);
     let rows := rows_of result in
     release connection;;
     match rows with
     | [] =>
       mret (res_status_json 404 (Failure false "School not found" None))
     | school :: _ =>
       let baseUrl := baseUrl req in
       let school := <["image" := absolute_image baseUrl school]> school in
       mret (res_json (SchoolOne true school))
     end)
    (λ error,
     console_error "❌ Error fetching school:" error;;
     mret (res_status_json 500
             (Failure false "Failed to fetch school"
                      (Some (message_of error))))).

(** The global error handler. *)
Definition error_handler (error : JsError) (req : Request) : M Response :=
  let otherwise :=
    mret (res_status_json 500 (Failure false (message_of error) None)) in
  match error with
  | MulterError code _ =>
    if String.eqb code "LIMIT_FILE_SIZE" then
      mret (res_status_json 400
              (Failure false "File too large. Maximum size is 5MB." None))
    else otherwise
  | Error _ => otherwise
  end.

(** Express runs the middleware of a route in order; an error given to
    [next] skips the rest of the route and reaches the error handler. *)
Definition app_post_schools (req : Request) : M Response :=
  λ w, match upload_single "image" req w with
       | (inl error, w') => error_handler error req w'
       | (inr req', w') => post_schools req' w'
       end.

Definition app_get_schools (req : Request) : M Response := get_schools req.

Definition app_get_school (req : Request) : M Response := get_school req.

(** ** Bootstrap *)

Definition initializeDatabase : M unit :=
  try_catch
    (connection ← getConnection;
     execute connection CreateTableIfNotExists;;
     release connection;;
     console_log "✅ Database table initialized successfully")
    (λ error, console_error "❌ Error initializing database:" error).

Definition app_listen : M unit := λ w,
  console_log "🚀 Server running on port" (emit Listen (set_listening w)).

(** [initializeDatabase().then(() => app.listen(...))] *)
Definition start : M unit := initializeDatabase;; app_listen.

(** ** The image directory

    An absolute directory is the list of its components.  A relative
    path given to [fs] is resolved against the working directory of the
    process; [__dirname] is the directory of [server.js]. *)

Module Fs.

Definition Dir := list string.

(** A component [cur] read after [base]: empty components and [.] are
    dropped, [..] removes the last one. *)
Definition enter (cur : string) (base : Dir) : Dir :=
  if String.eqb cur "" then base
  else if String.eqb cur "." then base
  else if String.eqb cur ".." then removelast base
  else (base ++ [cur])%list.

(** The directory the text [p] leads to from [base]; [cur] is the
    component being read. *)
Fixpoint components (p : string) (cur : string) (base : Dir) : Dir :=
  match p with
  | EmptyString => enter cur base
  | String c r =>
    if Ascii.eqb c "/"%char then components r "" (enter cur base)
    else components r (cur +:+ String c EmptyString) base
  end.

(** [path.join(base, p)] and the resolution of a relative [p] against
    [base]. *)
Definition join (base : Dir) (p : string) : Dir := components p "" base.

Record Process := {
  __dirname : Dir;
  cwd : Dir
}.

Definition imagesDir (pr : Process) : Dir :=
  join (__dirname pr) "public/schoolImages".

(** The directory [multer.diskStorage] writes to: its [destination]
    callback answers a relative path. *)
Definition upload_dir (pr : Process) : Dir :=
  join (cwd pr) storage_destination.

(** The directory [express.static] serves. *)
Definition static_dir (pr : Process) : Dir :=
  join (join (cwd pr) "public") "schoolImages".

(** [fs.mkdirSync(d, { recursive: true })] creates [d] and the missing
    directories above it. *)
Fixpoint mkdir_recursive (d : Dir) (n : nat) (dirs : gset Dir) : gset Dir :=
  match n with
  | O => {[ take 0 d ]} ∪ dirs
  | S k => {[ take n d ]} ∪ mkdir_recursive d k dirs
  end.

Definition mkdirSync (d : Dir) (dirs : gset Dir) : gset Dir :=
  mkdir_recursive d (length d) dirs.

Definition existsSync (d : Dir) (dirs : gset Dir) : bool :=
  bool_decide (d ∈ dirs).

(** [if (!fs.existsSync(imagesDir)) fs.mkdirSync(imagesDir, ...)] *)
Definition ensure_imagesDir (pr : Process) (dirs : gset Dir) : gset Dir :=
  if negb (existsSync (imagesDir pr) dirs)
  then mkdirSync (imagesDir pr) dirs
  else dirs.

End Fs.

(** ** The policies as the specification words them *)

(** The extension multer's filter looks at. *)
Definition extension (f : FilePart) : string :=
  Js.toLowerCase (Path.extname (originalname f)).

(** Membership in the allow-list {jpeg, jpg, png, gif}: the extension is
    a dot followed by one of the four words, the declared content type
    is one of them, bare or as an [image/] subtype. *)
Definition extension_in_allow_list (f : FilePart) : Prop :=
  ∃ a, a ∈ allowedTypes ∧ extension f = "." +:+ a.

Definition content_type_in_allow_list (f : FilePart) : Prop :=
  ∃ a, a ∈ allowedTypes ∧ (mimetype f = a ∨ mimetype f = "image/" +:+ a).

(** [alt] occurs somewhere in [s]. *)
Definition occurs (alt s : string) : Prop :=
  ∃ pre post, s = pre +:+ alt +:+ post.


(** A response of the 400 class. *)
Definition client_error (r : JsError + Response) : Prop :=
  ∃ resp, r = inr resp ∧ (400 ≤ status resp < 500)%Z.

(** The creation time an object of the list carries. *)
Definition obj_created_at (o : gmap string JsValue) : option Z :=
  match o !! "created_at" with
  | Some (JsNumber t) => Some t
  | _ => None
  end.

Definition obj_newer_first (o1 o2 : gmap string JsValue) : Prop :=
  ts_le (obj_created_at o2) (obj_created_at o1).

(** What the two read routes do to a row object. *)
Definition publish (req : Request) (row : gmap string JsValue)
  : gmap string JsValue :=
  <["image" := absolute_image (baseUrl req) row]> row.

(** ** Worlds and requests used as examples *)

Definition school1 : Row.t :=
  {| Row.id := 1; Row.name := "Hill School"; Row.address := "1 Hill Rd";
     Row.city := "Mysuru"; Row.state := "KA"; Row.contact := 9876543210;
     Row.image := Some "/schoolImages/school-1700000000000-42.png";
     Row.email_id := "hill@example.org"; Row.created_at := Some 100 |}.

Definition school2 : Row.t :=
  {| Row.id := 2; Row.name := "Lake School"; Row.address := "2 Lake Rd";
     Row.city := "Udupi"; Row.state := "KA"; Row.contact := 9123456780;
     Row.image := None;
     Row.email_id := "lake@example.org"; Row.created_at := Some 200 |}.

Definition world_with (tbl : option (list Row.t)) (ddl : bool) : World :=
  {| reachable := true; may_create := ddl; schools := tbl;
     auto_increment := 4; current_timestamp := 400;
     date_now := 1700000400000; random := 7; checked_out := 0;
     trace := []; listening := false |}.

Definition healthy : World := world_with (Some [school1; school2]) true.

(** The table is absent and the account may not create it. *)
Definition denied : World := world_with None false.

Definition form : gmap string string :=
  <["name" := "Dale School"]> (<["address" := "3 Dale Rd"]>
  (<["city" := "Hubli"]> (<["state" := "KA"]>
  (<["contact" := "9000000000"]> (<["email_id" := "dale@example.org"]> ∅))))).

Definition request (id : Z) (f : option FilePart) : Request :=
  {| protocol := "http"; host := "localhost:3001"; params_id := id;
     body := form; part := f; file := None |}.

Definition notes_txt : FilePart :=
  {| fieldname := "image"; originalname := "notes.txt";
     mimetype := "text/plain"; stream_bytes := 2048 |}.

(** Six mebibytes of text, and of PNG. *)
Definition big_txt : FilePart :=
  {| fieldname := "image"; originalname := "notes.txt";
     mimetype := "text/plain"; stream_bytes := 6 * 1024 * 1024 |}.

Definition big_png : FilePart :=
  {| fieldname := "image"; originalname := "campus.png";
     mimetype := "image/png"; stream_bytes := 6 * 1024 * 1024 |}.

(** [server.js] lies in [/srv/app]; node was started from [/srv]. *)
Definition started_elsewhere : Fs.Process :=
  {| Fs.__dirname := ["srv"; "app"]; Fs.cwd := ["srv"] |}.

Definition disk : gset Fs.Dir := {[ []; ["srv"]; ["srv"; "app"] ]}.

(** ** Sequences of requests *)

(** What changes between two requests without the server acting: the
    reachability of the database, the privileges of the account, the
    clocks and the next random number. *)
Record Env := {
  env_reachable : bool;
  env_may_create : bool;
  env_timestamp : Z;
  env_now : Z;
  env_random : Z
}.

Definition set_env (e : Env) (w : World) : World :=
  {| reachable := env_reachable e; may_create := env_may_create e;
     schools := schools w; auto_increment := auto_increment w;
     current_timestamp := env_timestamp e; date_now := env_now e;
     random := env_random e; checked_out := checked_out w;
     trace := trace w; listening := listening w |}.

Inductive Call :=
| Boot
| PostSchools (req : Request)
| GetSchools (req : Request)
| GetSchool (req : Request)
| Outside (e : Env).

(** The world after one call. *)
Definition serve (c : Call) (w : World) : World :=
  match c with
  | Boot => snd (start w)
  | PostSchools req => snd (app_post_schools req w)
  | GetSchools req => snd (app_get_schools req w)
  | GetSchool req => snd (app_get_school req w)
  | Outside e => set_env e w
  end.

Definition serve_all (cs : list Call) (w : World) : World :=
  fold_left (λ w c, serve c w) cs w.

(** [id INT AUTO_INCREMENT PRIMARY KEY]: the ids of the table are
    pairwise distinct and below the next id. *)
Definition ids_fresh (w : World) : Prop :=
  match schools w with
  | Some tbl =>
    NoDup (Row.id <$> tbl) ∧
    Forall (λ r, (Row.id r < auto_increment w)%Z) tbl
  | None => True
  end.

(** The bind parameters [post_schools] hands to the [INSERT]. *)
Definition insert_params (req : Request) : list (option JsValue) :=
  [JsString <$> body req !! "name"; JsString <$> body req !! "address";
   JsString <$> body req !! "city"; JsString <$> body req !! "state";
   JsString <$> body req !! "contact";
   Some (match file req with
         | Some f => JsString ("/schoolImages/" +:+ filename f)
         | None => JsNull
         end);
   JsString <$> body req !! "email_id"].

(** A character that is neither the separator nor the dot. *)
Definition plain (c : ascii) : Prop :=
  c ≠ Path.CHAR_FORWARD_SLASH ∧ c ≠ Path.CHAR_DOT.

(** What [Path.scan] knows after reading the characters [suf] that follow
    the first [npre] ones. *)
Definition scan_inv (st : Path.Scan) (npre : Z) (suf : list ascii) : Prop :=
  (Path.end_ st = -1 →
     Path.startDot st = -1 ∧ Path.matchedSlash st = true) ∧
  (Path.end_ st ≠ -1 → Path.matchedSlash st = false) ∧
  (Path.startDot st = -1 → Path.end_ st ≠ -1 →
     ∃ e t, suf = (e ++ t)%list ∧ Forall plain e ∧
            Path.end_ st = npre + Z.of_nat (length e)) ∧
  (Path.startDot st ≠ -1 →
     ∃ a e t, suf = (a ++ Path.CHAR_DOT :: e ++ t)%list ∧ Forall plain e ∧
              Path.startDot st = npre + Z.of_nat (length a) ∧
              Path.end_ st = npre + Z.of_nat (length a) + 1
                             + Z.of_nat (length e)).

(** What [Path.scan] has found in the whole path [l] when it stops. *)
Definition scan_found (st : Path.Scan) (l : list ascii) : Prop :=
  Path.startDot st = -1 ∨
  ∃ a e t, l = (a ++ Path.CHAR_DOT :: e ++ t)%list ∧ Forall plain e ∧
           Path.startDot st = Z.of_nat (length a) ∧
           Path.end_ st = Z.of_nat (length a) + 1 + Z.of_nat (length e).

(** The image path the create route writes: null, or [/schoolImages/]
    followed by the name of the stored file. *)
Definition stored_by_server (r : Row.t) : Prop :=
  Row.image r = None ∨
  ∃ name, Row.image r = Some ("/schoolImages/" +:+ name).

Definition images_stored_by_server (w : World) : Prop :=
  match schools w with
  | Some tbl => Forall stored_by_server tbl
  | None => True
  end.

Definition campus_png : FilePart :=
  {| fieldname := "image"; originalname := "campus.png";
     mimetype := "image/png"; stream_bytes := 4096 |}.

(** ** Strings and the regular expression *)

Lemma append_cons (c : ascii) (a p : string) :
  String c a +:+ p = String c (a +:+ p).
Proof. reflexivity. Qed.

Lemma prefix_spec (a s : string) :
  String.prefix a s = true ↔ ∃ post, s = a +:+ post.
Proof.
  revert s. induction a as [|c a IH]; intros s; simpl.
  - split; [intros _; by exists s | by destruct s].
  - destruct s as [|d s]; simpl.
    + split; [done | intros [post H]; rewrite append_cons in H; discriminate].
    + destruct (Ascii.ascii_dec c d) as [->|Hne].
      * rewrite IH. split; intros [post H]; exists post;
          rewrite append_cons in *; congruence.
      * split; [done | intros [post H]; rewrite append_cons in H; congruence].
Qed.

Lemma match_here_spec (re : Js.Regex) (s : string) :
  Js.match_here re s = true ↔ ∃ alt post, alt ∈ re ∧ s = alt +:+ post.
Proof.
  unfold Js.match_here. rewrite existsb_exists. split.
  - intros (alt & Hin & Hp). apply prefix_spec in Hp as [post ->].
    exists alt, post. split; [by apply list_elem_of_In | done].
  - intros (alt & post & Hin & ->). exists alt.
    split; [by apply list_elem_of_In | apply prefix_spec; eauto].
Qed.

Lemma test_spec (re : Js.Regex) (s : string) :
  Js.test re s = true ↔ ∃ alt, alt ∈ re ∧ occurs alt s.
Proof.
  induction s as [|c s IH].
  - cbn [Js.test]. rewrite orb_false_r, match_here_spec. split.
    + intros (alt & post & Hin & H). exists alt. split; [done |].
      by exists "", post.
    + intros (alt & Hin & pre & post & H). exists alt, post. split; [done |].
      destruct pre; [done | rewrite append_cons in H; discriminate].
  - cbn [Js.test]. rewrite orb_true_iff, match_here_spec, IH. split.
    + intros [(alt & post & Hin & H) | (alt & Hin & pre & post & H)].
      * exists alt. split; [done |]. by exists "", post.
      * exists alt. split; [done |]. exists (String c pre), post.
        by rewrite append_cons, H.
    + intros (alt & Hin & pre & post & H). destruct pre as [|d pre].
      * left. by exists alt, post.
      * right. exists alt. split; [done |]. exists pre, post.
        rewrite append_cons in H. congruence.
Qed.



(** ** Running the handlers *)

Ltac run :=
  unfold app_post_schools, app_get_schools, app_get_school, post_schools,
    get_schools, get_school, initializeDatabase, start, app_listen,
    upload_single, storage_filename, error_handler, try_catch, console_log,
    console_error, tell, ask, throw, release, getConnection, execute,
    mbind, M_bind, mret, M_ret.

Lemma fileFilter_error (f : FilePart) (e : JsError) :
  fileFilter f = inl e → e = Error "Only image files are allowed".
Proof.
  unfold fileFilter. destruct (_ && _)%bool; intros H; congruence.
Qed.

(** ** File intake errors *)

(** C1, as the code has it: a create request whose file is refused by
    [fileFilter] is answered by the global error handler with status 500
    and the filter's message; the route is never entered, so the world,
    and with it the table, is left as it was. *)
Theorem rejected_type_answers_500 (req : Request) (w : World)
    (f : FilePart) (e : JsError) :
  part req = Some f →
  originalname f ≠ "" →
  fieldname f = "image" →
  fileFilter f = inl e →
  app_post_schools req w =
    (inr (res_status_json 500
            (Failure false "Only image files are allowed" None)), w).
Proof.
  intros Hp Hn Hf Hff. pose proof (fileFilter_error _ _ Hff) as ->.
  run. rewrite Hp, Hf, Hff.
  destruct (String.eqb_spec (originalname f) ""); [done |]. reflexivity.
Qed.

Lemma rejected_type_answers_500_witness :
  app_post_schools (request 1 (Some notes_txt)) healthy =
    (inr (res_status_json 500
            (Failure false "Only image files are allowed" None)), healthy).
Proof.
  apply (rejected_type_answers_500 (request 1 (Some notes_txt)) healthy
           notes_txt (Error "Only image files are allowed"));
    [reflexivity | discriminate | reflexivity | reflexivity].
Defined.

(** C1, the claim as written fails: [notes.txt] sent under the field
    [image] is refused by the type validation, and the answer is not of
    the 400 class. *)
Lemma txt_upload_is_no_client_error :
  (∃ e, fileFilter notes_txt = inl e) ∧
  ¬ client_error (fst (app_post_schools (request 1 (Some notes_txt)) healthy)).
Proof.
  split; [eexists; reflexivity |].
  intros (resp & H & Hs). vm_compute in H.
  injection H as <-. simpl in Hs. lia.
Qed.

(** C9, as the code has it: a file under the field [image] that passes
    the type filter and carries more than 5 MiB is stopped by multer with
    [LIMIT_FILE_SIZE]; the error handler answers 400 "File too large.
    Maximum size is 5MB." and the route is never entered, so no row is
    inserted. *)
Theorem oversize_image_answers_400 (req : Request) (w : World)
    (f : FilePart) :
  part req = Some f →
  originalname f ≠ "" →
  fieldname f = "image" →
  fileFilter f = inr true →
  (5 * 1024 * 1024 < stream_bytes f)%Z →
  app_post_schools req w =
    (inr (res_status_json 400
            (Failure false "File too large. Maximum size is 5MB." None)), w).
Proof.
  intros Hp Hn Hf Hff Hsz. run. rewrite Hp, Hf, Hff.
  destruct (String.eqb_spec (originalname f) ""); [done |]. cbn.
  destruct (Z.ltb_spec fileSize (stream_bytes f)) as [_ | Hle];
    [reflexivity | unfold fileSize in Hle; lia].
Qed.

Lemma oversize_image_answers_400_witness :
  app_post_schools (request 1 (Some big_png)) healthy =
    (inr (res_status_json 400
            (Failure false "File too large. Maximum size is 5MB." None)),
     healthy).
Proof.
  apply (oversize_image_answers_400 (request 1 (Some big_png)) healthy
           big_png);
    [reflexivity | discriminate | reflexivity | reflexivity | reflexivity].
Defined.

(** C9, the claim as written fails: six mebibytes of [notes.txt] exceed
    the ceiling, yet the type filter speaks first and the answer is 500,
    not 400. *)
Lemma oversize_txt_is_not_answered_400 :
  (fileSize < stream_bytes big_txt)%Z ∧
  ¬ ∃ resp,
      fst (app_post_schools (request 1 (Some big_txt)) healthy) = inr resp ∧
      status resp = 400%Z.
Proof.
  split; [reflexivity |].
  intros (resp & H & Hs). vm_compute in H.
  injection H as <-. discriminate.
Qed.

(** ** The connection pool *)

(** A request that is served gives its connection back. *)
Lemma get_schools_ok (req : Request) (w : World) (tbl : list Row.t) :
  reachable w = true → schools w = Some tbl →
  fst (get_schools req w) =
    inr (res_json (SchoolList true
           (publish req <$> (to_object <$> merge_sort newer_first tbl)))) ∧
  checked_out (snd (get_schools req w)) = checked_out w ∧
  schools (snd (get_schools req w)) = schools w.
Proof. intros Hr Hs. run. rewrite Hr. cbn. rewrite Hs. cbn. done. Qed.

Lemma get_school_ok (req : Request) (w : World) (tbl : list Row.t) :
  reachable w = true → schools w = Some tbl →
  fst (get_school req w) =
    inr (match to_object <$> filter (has_id (params_id req)) tbl with
         | [] => res_status_json 404 (Failure false "School not found" None)
         | school :: _ => res_json (SchoolOne true (publish req school))
         end) ∧
  checked_out (snd (get_school req w)) = checked_out w ∧
  schools (snd (get_school req w)) = schools w.
Proof.
  intros Hr Hs. run. rewrite Hr. cbn. rewrite Hs. cbn.
  destruct (to_object <$> _); cbn; done.
Qed.

Lemma post_schools_ok (req : Request) (w : World) (tbl : list Row.t)
    (vs : list JsValue) (row : Row.t) :
  reachable w = true → schools w = Some tbl →
  bound [JsString <$> body req !! "name"; JsString <$> body req !! "address";
         JsString <$> body req !! "city"; JsString <$> body req !! "state";
         JsString <$> body req !! "contact";
         Some (match file req with
               | Some f => JsString ("/schoolImages/" +:+ filename f)
               | None => JsNull
               end);
         JsString <$> body req !! "email_id"] = inr vs →
  new_row vs w = Some row →
  fst (post_schools req w) =
    inr (res_status_json 201
           (Created true "School added successfully" (auto_increment w))) ∧
  checked_out (snd (post_schools req w)) = checked_out w ∧
  schools (snd (post_schools req w)) = Some (tbl ++ [row])%list.
Proof.
  intros Hr Hs Hb Hn. run. rewrite Hr. cbn. rewrite Hb, Hs.
  assert (new_row vs (emit Acquired (set_checked_out (S (checked_out w)) w))
          = Some row) as ->.
  { rewrite <- Hn. by destruct vs as [|? [|? [|? [|? [|? [|? [|? [|]]]]]]]]. }
  cbn. split; [| done]. do 3 f_equal.
  destruct vs as [|? [|? [|? [|? [|? [|? [|? [|]]]]]]]]; try discriminate.
  clear Hb. cbn in Hn. by simplify_option_eq.
Qed.

(** C2, what the code does when the statement throws: with the table
    absent every statement of the three routes fails; each route answers
    500 from its [catch] block, and the connection it acquired is still
    checked out afterwards: [connection.release()] sits after the
    statement inside [try] and is skipped. *)
Theorem connection_kept_when_statement_throws (req : Request) (w : World) :
  reachable w = true → schools w = None →
  (∃ m, fst (post_schools req w) =
          inr (res_status_json 500 (Failure false "Failed to add school" m))) ∧
  checked_out (snd (post_schools req w)) = S (checked_out w) ∧
  fst (get_schools req w) =
    inr (res_status_json 500
           (Failure false "Failed to fetch schools"
                    (Some (message_of no_such_table)))) ∧
  checked_out (snd (get_schools req w)) = S (checked_out w) ∧
  trace (snd (get_schools req w)) =
    (trace w ++ [Acquired; Executed SelectAllByCreatedAtDesc;
                 ConsoleError "❌ Error fetching schools:" no_such_table])%list ∧
  fst (get_school req w) =
    inr (res_status_json 500
           (Failure false "Failed to fetch school"
                    (Some (message_of no_such_table)))) ∧
  checked_out (snd (get_school req w)) = S (checked_out w).
Proof.
  intros Hr Hs. split_and!.
  - run. rewrite Hr. cbn. rewrite Hs.
    destruct (bound _); cbn; eauto.
  - run. rewrite Hr. cbn. rewrite Hs.
    destruct (bound _); cbn; eauto.
  - run. rewrite Hr. cbn. by rewrite Hs.
  - run. rewrite Hr. cbn. by rewrite Hs.
  - run. rewrite Hr. cbn. rewrite Hs. cbn. repeat rewrite <- app_assoc. reflexivity.
  - run. rewrite Hr. cbn. by rewrite Hs.
  - run. rewrite Hr. cbn. by rewrite Hs.
Qed.

Lemma connection_kept_when_statement_throws_witness :
  checked_out (snd (get_schools (request 1 None) denied)) = 1%nat.
Proof.
  apply (connection_kept_when_statement_throws (request 1 None) denied);
    reflexivity.
Defined.

(** The same on a healthy database, for a form that lacks [name]: the
    driver refuses the [undefined] bind parameter. *)
Lemma connection_kept_when_field_missing (req : Request) (w : World) :
  reachable w = true → body req !! "name" = None →
  (∃ m, fst (post_schools req w) =
          inr (res_status_json 500 (Failure false "Failed to add school" m))) ∧
  checked_out (snd (post_schools req w)) = S (checked_out w) ∧
  schools (snd (post_schools req w)) = schools w.
Proof.
  intros Hr Hn. run. rewrite Hr, Hn. cbn. eauto.
Qed.

(** ** Bootstrap *)

Lemma initializeDatabase_never_throws (w : World) :
  fst (initializeDatabase w) = inr tt.
Proof.
  run. destruct (reachable w); [| done]. cbn.
  destruct (may_create w); done.
Qed.

(** [app.listen] runs once [initializeDatabase] has returned, whatever
    happened inside it. *)
Lemma start_listens_after_init (w : World) :
  start w =
    (inr tt,
     emit (ConsoleLog "🚀 Server running on port")
       (emit Listen (set_listening (snd (initializeDatabase w))))).
Proof.
  pose proof (initializeDatabase_never_throws w) as H.
  unfold start, mbind, M_bind. destruct (initializeDatabase w) as [[e | []] w1].
  - discriminate.
  - reflexivity.
Qed.

(** C3, as the code has it: when the [CREATE TABLE] step throws, the
    error is caught and logged inside [initializeDatabase], the table is
    left as it was, and the server then starts listening: the listen step
    follows the end of schema initialization, successful or not. *)
Theorem failed_initialization_is_logged_then_listen (w : World) :
  reachable w = true → may_create w = false →
  fst (start w) = inr tt ∧
  listening (snd (start w)) = true ∧
  schools (snd (start w)) = schools w ∧
  trace (snd (start w)) =
    (trace w ++
     [Acquired; Executed CreateTableIfNotExists;
      ConsoleError "❌ Error initializing database:"
                   (Error "CREATE command denied to user");
      Listen; ConsoleLog "🚀 Server running on port"])%list.
Proof.
  intros Hr Hc. rewrite start_listens_after_init.
  run. rewrite Hr. cbn. rewrite Hc. cbn.
  split_and!; try done. repeat rewrite <- app_assoc. reflexivity.
Qed.

Lemma failed_initialization_is_logged_then_listen_witness :
  listening (snd (start denied)) = true.
Proof.
  apply (failed_initialization_is_logged_then_listen denied); reflexivity.
Defined.

(** C3, the claim as written fails: on [denied] the [CREATE TABLE] step
    throws and the server listens all the same. *)
Lemma listens_although_create_table_throws :
  (∃ e, fst (execute PoolConnection CreateTableIfNotExists denied) = inl e) ∧
  schools (snd (start denied)) = None ∧
  ¬ (listening (snd (start denied)) = false) ∧
  Listen ∈ trace (snd (start denied)).
Proof.
  split_and!.
  - eexists. reflexivity.
  - reflexivity.
  - discriminate.
  - vm_compute. set_solver.
Qed.

(** ** The image directory *)

Lemma join_images (base : Fs.Dir) :
  Fs.join base "public/schoolImages" = (base ++ ["public"; "schoolImages"])%list ∧
  Fs.join base "public/schoolImages/" = (base ++ ["public"; "schoolImages"])%list.
Proof.
  split.
  - change (Fs.join base "public/schoolImages")
      with ((base ++ ["public"]) ++ ["schoolImages"])%list.
    by rewrite <- app_assoc.
  - change (Fs.join base "public/schoolImages/")
      with ((base ++ ["public"]) ++ ["schoolImages"])%list.
    by rewrite <- app_assoc.
Qed.

(** Started in the directory of [server.js], the server creates the
    directory it uploads to. *)
Lemma upload_dir_when_started_in_place (pr : Fs.Process) :
  Fs.cwd pr = Fs.__dirname pr → Fs.upload_dir pr = Fs.imagesDir pr.
Proof.
  intros H. unfold Fs.upload_dir, Fs.imagesDir, storage_destination.
  destruct (join_images (Fs.cwd pr)) as [_ ->].
  destruct (join_images (Fs.__dirname pr)) as [-> _]. by rewrite H.
Qed.

(** Uploads and static files always share their directory. *)
Lemma static_dir_is_upload_dir (pr : Fs.Process) :
  Fs.static_dir pr = Fs.upload_dir pr.
Proof.
  unfold Fs.static_dir, Fs.upload_dir, storage_destination.
  destruct (join_images (Fs.cwd pr)) as [_ ->].
  change (Fs.join (Fs.join (Fs.cwd pr) "public") "schoolImages")
    with ((Fs.cwd pr ++ ["public"]) ++ ["schoolImages"])%list.
  by rewrite <- app_assoc.
Qed.

(** C5, the code at a start from another directory: with [server.js] in
    [/srv/app] and node started from [/srv], the startup check creates
    [/srv/app/public/schoolImages], while multer writes to (and
    [express.static] serves) [/srv/public/schoolImages], which still does
    not exist after startup. *)
Theorem startup_creates_another_directory :
  Fs.imagesDir started_elsewhere = ["srv"; "app"; "public"; "schoolImages"] ∧
  Fs.upload_dir started_elsewhere = ["srv"; "public"; "schoolImages"] ∧
  Fs.imagesDir started_elsewhere ≠ Fs.upload_dir started_elsewhere ∧
  Fs.existsSync (Fs.imagesDir started_elsewhere)
    (Fs.ensure_imagesDir started_elsewhere disk) = true ∧
  Fs.existsSync (Fs.upload_dir started_elsewhere)
    (Fs.ensure_imagesDir started_elsewhere disk) = false.
Proof.
  split_and!; [reflexivity | reflexivity | discriminate | |].
  - by vm_compute.
  - by vm_compute.
Qed.

(** ** The read routes *)

Lemma to_object_image (r : Row.t) :
  to_object r !! "image" = Some (nullable JsString (Row.image r)).
Proof. reflexivity. Qed.

Lemma to_object_created_at (r : Row.t) :
  to_object r !! "created_at" = Some (nullable JsNumber (Row.created_at r)).
Proof. reflexivity. Qed.

Lemma publish_image (req : Request) (row : gmap string JsValue) :
  publish req row !! "image" = Some (absolute_image (baseUrl req) row).
Proof. unfold publish. apply lookup_insert_eq. Qed.

(** The object spread and the assignment touch the property [image]
    only. *)
Lemma publish_frame (req : Request) (row : gmap string JsValue) (k : string) :
  k ≠ "image" → publish req row !! k = row !! k.
Proof. intros Hk. unfold publish. by apply lookup_insert_ne. Qed.

Lemma absolute_image_of_row (base : string) (r : Row.t) :
  absolute_image base (to_object r) =
    match Row.image r with
    | Some p => if String.eqb p "" then JsNull else JsString (base +:+ p)
    | None => JsNull
    end.
Proof.
  unfold absolute_image. rewrite to_object_image.
  destruct (Row.image r) as [p |]; cbn; [| done].
  by destruct (String.eqb p "").
Qed.

Lemma publish_created_at (req : Request) (r : Row.t) :
  obj_created_at (publish req (to_object r)) = Row.created_at r.
Proof.
  unfold obj_created_at. rewrite publish_frame by done.
  rewrite to_object_created_at. by destruct (Row.created_at r).
Qed.

Lemma Forall2_fmap_diag {A B} (P : A → B → Prop) (f : A → B) (l : list A) :
  (∀ x, x ∈ l → P x (f x)) → Forall2 P l (f <$> l).
Proof.
  induction l as [|x l IH]; intros H; cbn; constructor.
  - apply H. by left.
  - apply IH. intros y Hy. apply H. by right.
Qed.

(** What a row's [image] becomes in an answer to [req]. *)
Lemma published_image_cases (req : Request) (r : Row.t) :
  (∀ p, Row.image r = Some p → p ≠ "" →
        publish req (to_object r) !! "image" =
          Some (JsString (baseUrl req +:+ p))) ∧
  (Row.image r = None →
        publish req (to_object r) !! "image" = Some JsNull) ∧
  (Row.image r = Some "" →
        publish req (to_object r) !! "image" = Some JsNull).
Proof.
  rewrite publish_image, absolute_image_of_row. split_and!.
  - intros p -> Hp. by destruct (String.eqb_spec p "").
  - by intros ->.
  - by intros ->.
Qed.

(** The images in the answers of the two read routes, whatever the
    table holds. *)
Lemma read_routes_publish_images (req : Request) (w : World)
    (tbl : list Row.t) :
  reachable w = true → schools w = Some tbl →
  fst (app_get_schools req w) =
    inr (res_json (SchoolList true
           (publish req <$> (to_object <$> merge_sort newer_first tbl)))) ∧
  (∀ r rest, filter (has_id (params_id req)) tbl = r :: rest →
     fst (app_get_school req w) =
       inr (res_json (SchoolOne true (publish req (to_object r))))).
Proof.
  intros Hr Hs. split.
  - by destruct (get_schools_ok req w tbl Hr Hs) as (Hres & _).
  - intros r rest Hf.
    destruct (get_school_ok req w tbl Hr Hs) as (Hres & _).
    by rewrite Hf in Hres.
Qed.

#[global] Instance newer_first_total : Total newer_first.
Proof.
  intros r1 r2. unfold newer_first.
  destruct (Row.created_at r1), (Row.created_at r2); simpl; auto; lia.
Qed.

#[global] Instance newer_first_trans : Transitive newer_first.
Proof.
  intros r1 r2 r3. unfold newer_first.
  destruct (Row.created_at r1), (Row.created_at r2), (Row.created_at r3);
    simpl; auto; try lia; done.
Qed.

(** C7: the list route answers with every row of the table, each once
    (as the object the route publishes for it), later creation times
    first. *)
Theorem list_is_whole_table_newest_first (req : Request) (w : World)
    (tbl : list Row.t) :
  reachable w = true → schools w = Some tbl →
  ∃ objs,
    fst (app_get_schools req w) = inr (res_json (SchoolList true objs)) ∧
    objs ≡ₚ (publish req ∘ to_object) <$> tbl ∧
    StronglySorted obj_newer_first objs.
Proof.
  intros Hr Hs. destruct (get_schools_ok req w tbl Hr Hs) as (Hres & _).
  eexists. split_and!.
  - exact Hres.
  - rewrite <- list_fmap_compose. apply fmap_Permutation.
    apply merge_sort_Permutation.
  - rewrite <- list_fmap_compose.
    apply StronglySorted_fmap with (R1 := newer_first).
    + intros x y Hxy. unfold obj_newer_first. cbn.
      by rewrite !publish_created_at.
    + apply StronglySorted_merge_sort; apply _.
Qed.

Lemma list_is_whole_table_newest_first_witness :
  ∃ objs,
    fst (app_get_schools (request 1 None) healthy) =
      inr (res_json (SchoolList true objs)) ∧
    objs ≡ₚ (publish (request 1 None) ∘ to_object) <$> [school1; school2] ∧
    StronglySorted obj_newer_first objs.
Proof.
  apply (list_is_whole_table_newest_first (request 1 None) healthy
           [school1; school2]); reflexivity.
Defined.

(** C8: when no row of the table has the requested id, GetById answers
    404 with [success: false] and the message "School not found"; this is
    not the 500 answer of the [catch] block. *)
Theorem unknown_id_answers_404 (req : Request) (w : World)
    (tbl : list Row.t) :
  reachable w = true → schools w = Some tbl →
  Forall (λ r, Row.id r ≠ params_id req) tbl →
  ∃ resp,
    fst (app_get_school req w) = inr resp ∧
    status resp = 404%Z ∧
    json resp = Failure false "School not found" None ∧
    success_of (json resp) = false ∧
    status resp ≠ 500%Z.
Proof.
  intros Hr Hs Hid. destruct (get_school_ok req w tbl Hr Hs) as (Hres & _).
  assert (filter (has_id (params_id req)) tbl = []) as Hnil.
  { clear Hs Hres. induction Hid as [|r l Hne _ IH]; [done |].
    rewrite filter_cons, IH. by destruct (decide (has_id _ r)). }
  rewrite Hnil in Hres. eexists. split; [exact Hres |]. by cbn.
Qed.

Lemma unknown_id_answers_404_witness :
  ∃ resp,
    fst (app_get_school (request 3 None) healthy) = inr resp ∧
    status resp = 404%Z ∧
    json resp = Failure false "School not found" None ∧
    success_of (json resp) = false ∧
    status resp ≠ 500%Z.
Proof.
  apply (unknown_id_answers_404 (request 3 None) healthy [school1; school2]);
    [reflexivity | reflexivity | repeat constructor; discriminate].
Defined.

(** C10: in the answers of List and of GetById every property other than
    [image] (id, name, address, city, state, contact, email_id,
    created_at) is the one of the row object the driver delivered; the
    rewriting touches [image] alone. *)
Theorem other_fields_are_returned_as_stored (req : Request) (w : World)
    (tbl : list Row.t) :
  reachable w = true → schools w = Some tbl →
  let same_but_image (r : Row.t) (obj : gmap string JsValue) : Prop :=
    (∀ k, k ≠ "image" → obj !! k = to_object r !! k) ∧
    obj !! "id" = Some (JsNumber (Row.id r)) ∧
    obj !! "name" = Some (JsString (Row.name r)) ∧
    obj !! "address" = Some (JsString (Row.address r)) ∧
    obj !! "city" = Some (JsString (Row.city r)) ∧
    obj !! "state" = Some (JsString (Row.state r)) ∧
    obj !! "contact" = Some (JsNumber (Row.contact r)) ∧
    obj !! "email_id" = Some (JsString (Row.email_id r)) ∧
    obj !! "created_at" = Some (nullable JsNumber (Row.created_at r)) in
  (∃ objs,
     fst (app_get_schools req w) = inr (res_json (SchoolList true objs)) ∧
     Forall2 same_but_image (merge_sort newer_first tbl) objs) ∧
  (∀ r rest, filter (has_id (params_id req)) tbl = r :: rest →
     ∃ obj,
       fst (app_get_school req w) = inr (res_json (SchoolOne true obj)) ∧
       same_but_image r obj).
Proof.
  intros Hr Hs same_but_image.
  assert (∀ r, same_but_image r (publish req (to_object r))) as Hsame.
  { intros r. split; [intros k Hk; by apply publish_frame |].
    split_and!; by rewrite publish_frame. }
  split.
  - destruct (get_schools_ok req w tbl Hr Hs) as (Hres & _).
    eexists. split; [exact Hres |].
    rewrite <- list_fmap_compose. apply Forall2_fmap_diag. auto.
  - intros r rest Hf.
    destruct (get_school_ok req w tbl Hr Hs) as (Hres & _).
    rewrite Hf in Hres. eexists. split; [exact Hres |]. apply Hsame.
Qed.

Lemma other_fields_are_returned_as_stored_witness :
  ∃ obj,
    fst (app_get_school (request 1 None) healthy) =
      inr (res_json (SchoolOne true obj)) ∧
    obj !! "name" = Some (JsString "Hill School").
Proof.
  destruct (other_fields_are_returned_as_stored (request 1 None) healthy
              [school1; school2] eq_refl eq_refl) as [_ H].
  destruct (H school1 [] eq_refl) as (obj & Hobj & _ & _ & Hname & _).
  exists obj. split; [exact Hobj | exact Hname].
Defined.

(** ** The routes, case by case *)

Lemma upload_single_pure (req : Request) (w : World) :
  snd (upload_single "image" req w) = w.
Proof.
  run. destruct (part req) as [f |]; [| done].
  destruct (String.eqb (originalname f) ""); [done |].
  destruct (negb _); [done |].
  destruct (fileFilter f) as [e | [|]]; try done.
  by destruct (Z.ltb _ _).
Qed.

Lemma upload_single_keeps_request (req req' : Request) (w : World) :
  fst (upload_single "image" req w) = inr req' →
  protocol req' = protocol req ∧ host req' = host req ∧
  params_id req' = params_id req ∧ body req' = body req ∧
  part req' = part req.
Proof.
  run. destruct (part req) as [f |] eqn:Hp; [| by intros [= <-]].
  destruct (String.eqb (originalname f) ""); [by intros [= <-] |].
  destruct (negb _); [done |].
  destruct (fileFilter f) as [e | [|]]; try done; [| by intros [= <-]].
  destruct (Z.ltb _ _); [done |]. by intros [= <-].
Qed.

(** What [post_schools] does, in every world. *)
Lemma post_schools_cases (req : Request) (w : World) :
  let w' := snd (post_schools req w) in
  (∃ tbl vs row,
     reachable w = true ∧ schools w = Some tbl ∧
     bound (insert_params req) = inr vs ∧ new_row vs w = Some row ∧
     fst (post_schools req w) =
       inr (res_status_json 201
              (Created true "School added successfully" (Row.id row))) ∧
     schools w' = Some (tbl ++ [row])%list ∧
     auto_increment w' = auto_increment w + 1 ∧
     checked_out w' = checked_out w) ∨
  (∃ e,
     fst (post_schools req w) =
       inr (res_status_json 500
              (Failure false "Failed to add school" (Some (message_of e)))) ∧
     schools w' = schools w ∧
     auto_increment w' = auto_increment w ∧
     (checked_out w' = checked_out w ∨ checked_out w' = S (checked_out w)) ∧
     (reachable w = false → checked_out w' = checked_out w ∧
        e = Error "connect ECONNREFUSED")).
Proof.
  intros w'. subst w'. unfold insert_params. run.
  destruct (reachable w) eqn:Hr; cbn.
  2: { right. exists (Error "connect ECONNREFUSED"). split_and!; auto. }
  destruct (bound _) as [e | vs] eqn:Hb; cbn.
  { right. exists e. split_and!; auto; done. }
  destruct (schools w) as [tbl |] eqn:Hs; cbn.
  2: { right. exists no_such_table. split_and!; auto; done. }
  destruct (new_row vs _) as [row |] eqn:Hn; cbn.
  - left. exists tbl, vs, row.
    assert (new_row vs w = Some row) as Hn'.
    { rewrite <- Hn. by destruct vs as [|? [|? [|? [|? [|? [|? [|? [|]]]]]]]]. }
    split_and!; done.
  - right. exists (Error "Column cannot be null"). split_and!; auto; done.
Qed.

Lemma new_row_fields (vs : list JsValue) (w : World) (row : Row.t) :
  new_row vs w = Some row →
  ∃ name address city state contact image email_id,
    vs = [name; address; city; state; contact; image; email_id] ∧
    as_text name = Some (Row.name row) ∧
    as_text address = Some (Row.address row) ∧
    as_text city = Some (Row.city row) ∧
    as_text state = Some (Row.state row) ∧
    as_bigint contact = Some (Row.contact row) ∧
    as_text image = Row.image row ∧
    as_text email_id = Some (Row.email_id row) ∧
    Row.id row = auto_increment w ∧
    Row.created_at row = Some (current_timestamp w).
Proof.
  intros Hn.
  destruct vs as [|? [|? [|? [|? [|? [|? [|? [|]]]]]]]]; try discriminate.
  cbn in Hn. do 7 eexists. split; [reflexivity |].
  simplify_option_eq. by split_and!.
Qed.

Lemma get_schools_cases (req : Request) (w : World) :
  let w' := snd (get_schools req w) in
  schools w' = schools w ∧ auto_increment w' = auto_increment w ∧
  listening w' = listening w ∧
  ((∃ tbl, reachable w = true ∧ schools w = Some tbl ∧
      fst (get_schools req w) =
        inr (res_json (SchoolList true
               (publish req <$> (to_object <$> merge_sort newer_first tbl)))) ∧
      checked_out w' = checked_out w) ∨
   (∃ e, fst (get_schools req w) =
           inr (res_status_json 500
                  (Failure false "Failed to fetch schools"
                           (Some (message_of e)))) ∧
      (checked_out w' = checked_out w ∨ checked_out w' = S (checked_out w)) ∧
      (reachable w = false → checked_out w' = checked_out w ∧
         e = Error "connect ECONNREFUSED"))).
Proof.
  intros w'. subst w'. run.
  destruct (reachable w) eqn:Hr; cbn.
  2: { split_and!; try done. right. exists (Error "connect ECONNREFUSED").
       split_and!; auto. }
  destruct (schools w) as [tbl |] eqn:Hs; cbn.
  - split_and!; try done. left. exists tbl. by split_and!.
  - split_and!; try done. right. exists no_such_table. split_and!; auto; done.
Qed.

Lemma get_school_cases (req : Request) (w : World) :
  let w' := snd (get_school req w) in
  schools w' = schools w ∧ auto_increment w' = auto_increment w ∧
  listening w' = listening w ∧
  ((∃ tbl, reachable w = true ∧ schools w = Some tbl ∧
      fst (get_school req w) =
        inr (match filter (has_id (params_id req)) tbl with
             | [] =>
               res_status_json 404 (Failure false "School not found" None)
             | r :: _ => res_json (SchoolOne true (publish req (to_object r)))
             end) ∧
      checked_out w' = checked_out w) ∨
   (∃ e, fst (get_school req w) =
           inr (res_status_json 500
                  (Failure false "Failed to fetch school"
                           (Some (message_of e)))) ∧
      (checked_out w' = checked_out w ∨ checked_out w' = S (checked_out w)) ∧
      (reachable w = false → checked_out w' = checked_out w ∧
         e = Error "connect ECONNREFUSED"))).
Proof.
  intros w'. subst w'. run.
  destruct (reachable w) eqn:Hr; cbn.
  2: { split_and!; try done. right. exists (Error "connect ECONNREFUSED").
       split_and!; auto. }
  destruct (schools w) as [tbl |] eqn:Hs; cbn.
  - destruct (filter _ tbl) as [|r rest] eqn:Hf; cbn.
    + split_and!; try done. left. exists tbl. rewrite Hf. by split_and!.
    + split_and!; try done. left. exists tbl. rewrite Hf. by split_and!.
  - split_and!; try done. right. exists no_such_table. split_and!; auto; done.
Qed.

(** What the upload middleware and the error handler do to a create
    request before the route is entered. *)
Lemma app_post_schools_cases (req : Request) (w : World) :
  (∃ req', fst (upload_single "image" req w) = inr req' ∧
           app_post_schools req w = post_schools req' w) ∨
  (∃ e, fst (upload_single "image" req w) = inl e ∧
        app_post_schools req w = error_handler e req w).
Proof.
  pose proof (upload_single_pure req w) as Hw.
  unfold app_post_schools.
  destruct (upload_single "image" req w) as [[e | req'] w1]; cbn in *; subst w1.
  - right. by exists e.
  - left. by exists req'.
Qed.

(** The answers of the error handler. *)
Lemma error_handler_cases (e : JsError) (req : Request) (w : World) :
  ∃ resp,
    error_handler e req w = (inr resp, w) ∧
    success_of (json resp) = false ∧
    (status resp = 400 ↔ ∃ m, e = MulterError "LIMIT_FILE_SIZE" m) ∧
    (status resp = 400 →
       json resp =
         Failure false "File too large. Maximum size is 5MB." None) ∧
    (status resp ≠ 400 →
       status resp = 500 ∧ json resp = Failure false (message_of e) None).
Proof.
  unfold error_handler, mret, M_ret. destruct e as [m | code m].
  - eexists. split; [reflexivity |]. cbn. split_and!; try done.
    split; [done | by intros [? ?]].
  - destruct (String.eqb_spec code "LIMIT_FILE_SIZE") as [-> | Hne].
    + eexists. split; [reflexivity |]. cbn. split_and!; try done.
      split; [by eexists | done].
    + eexists. split; [reflexivity |]. cbn. split_and!; try done.
      split; [done | intros [? ?]; congruence].
Qed.

(** X1: the global error handler always answers with [success: false]
    and leaves the world alone; the status is 400, with the fixed
    file-too-large message, exactly for a [MulterError] whose code is
    [LIMIT_FILE_SIZE], and 500 with the error's own message for every
    other error. *)
Theorem error_handler_classifies (e : JsError) (req : Request) (w : World) :
  ∃ resp,
    error_handler e req w = (inr resp, w) ∧
    success_of (json resp) = false ∧
    (status resp = 400 ↔ ∃ m, e = MulterError "LIMIT_FILE_SIZE" m) ∧
    (status resp = 400 →
       json resp =
         Failure false "File too large. Maximum size is 5MB." None) ∧
    (status resp ≠ 400 →
       status resp = 500 ∧ json resp = Failure false (message_of e) None).
Proof. exact (error_handler_cases e req w). Qed.

(** ** What every request gets *)

(** The answers of the three routes in the model. *)
Lemma route_answers_cases (req : Request) (w : World) :
  (∃ resp, fst (app_post_schools req w) = inr resp ∧
           (status resp = 201 ∨ status resp = 400 ∨ status resp = 500) ∧
           (success_of (json resp) = true ↔ status resp = 201)) ∧
  (∃ resp, fst (app_get_schools req w) = inr resp ∧
           (status resp = 200 ∨ status resp = 500) ∧
           (success_of (json resp) = true ↔ status resp = 200)) ∧
  (∃ resp, fst (app_get_school req w) = inr resp ∧
           (status resp = 200 ∨ status resp = 404 ∨ status resp = 500) ∧
           (success_of (json resp) = true ↔ status resp = 200)).
Proof.
  split_and!.
  - destruct (app_post_schools_cases req w) as [(req' & _ & ->) | (e & _ & ->)].
    + destruct (post_schools_cases req' w)
        as [(tbl & vs & row & _ & _ & _ & _ & -> & _) | (e & -> & _)];
        eexists; (split; [reflexivity |]); cbn; split; auto; done.
    + destruct (error_handler_cases e req w)
        as (resp & -> & Hs & H400 & _ & H500).
      exists resp. split; [done |]. rewrite Hs.
      destruct (decide (status resp = 400)) as [Heq | Hne].
      * rewrite Heq. split; [auto | done].
      * destruct (H500 Hne) as [-> _]. split; [auto | done].
  - unfold app_get_schools.
    destruct (get_schools_cases req w)
      as (_ & _ & _ & [(tbl & _ & _ & -> & _) | (e & -> & _)]);
      eexists; (split; [reflexivity |]); cbn; split; auto; done.
  - unfold app_get_school.
    destruct (get_school_cases req w)
      as (_ & _ & _ & [(tbl & _ & _ & -> & _) | (e & -> & _)]).
    + destruct (filter _ tbl); eexists; (split; [reflexivity |]); cbn;
        split; auto; done.
    + eexists; (split; [reflexivity |]); cbn; split; auto; done.
Qed.

(** X2: whatever a route answers is classified: an answer to a create
    request has status 201, 400 or 500, an answer to the list 200 or 500,
    an answer to a lookup 200, 404 or 500, and the [success] flag of the
    body is true exactly for 200 and 201. *)
Theorem route_answers_are_classified (req : Request) (w : World)
    (resp : Response) :
  (fst (app_post_schools req w) = inr resp →
     (status resp = 201 ∨ status resp = 400 ∨ status resp = 500) ∧
     (success_of (json resp) = true ↔ status resp = 201)) ∧
  (fst (app_get_schools req w) = inr resp →
     (status resp = 200 ∨ status resp = 500) ∧
     (success_of (json resp) = true ↔ status resp = 200)) ∧
  (fst (app_get_school req w) = inr resp →
     (status resp = 200 ∨ status resp = 404 ∨ status resp = 500) ∧
     (success_of (json resp) = true ↔ status resp = 200)).
Proof.
  destruct (route_answers_cases req w)
    as ((r1 & H1 & P1) & (r2 & H2 & P2) & (r3 & H3 & P3)).
  split_and!; intros H.
  - rewrite H1 in H. by injection H as <-.
  - rewrite H2 in H. by injection H as <-.
  - rewrite H3 in H. by injection H as <-.
Qed.

(** X3: the two read routes never write: whatever the world and the
    request, and whether they succeed or fail, the table, the next id
    and the listening socket are as before. *)
Theorem read_routes_leave_table_alone (req : Request) (w : World) :
  schools (snd (app_get_schools req w)) = schools w ∧
  auto_increment (snd (app_get_schools req w)) = auto_increment w ∧
  listening (snd (app_get_schools req w)) = listening w ∧
  schools (snd (app_get_school req w)) = schools w ∧
  auto_increment (snd (app_get_school req w)) = auto_increment w ∧
  listening (snd (app_get_school req w)) = listening w.
Proof.
  destruct (get_schools_cases req w) as (? & ? & ? & _).
  destruct (get_school_cases req w) as (? & ? & ? & _).
  by split_and!.
Qed.

(** The table before and after a create request. *)
Lemma create_cases (req : Request) (w : World)
    (resp : Response) :
  fst (app_post_schools req w) = inr resp →
  let w' := snd (app_post_schools req w) in
  (status resp = 201 →
     ∃ tbl row,
       schools w = Some tbl ∧ schools w' = Some (tbl ++ [row])%list ∧
       json resp = Created true "School added successfully" (Row.id row) ∧
       Row.id row = auto_increment w ∧
       auto_increment w' = auto_increment w + 1) ∧
  (status resp ≠ 201 →
     schools w' = schools w ∧ auto_increment w' = auto_increment w).
Proof.
  intros Hresp w'. subst w'.
  destruct (app_post_schools_cases req w) as [(req' & _ & Heq) | (e & _ & Heq)];
    rewrite Heq in *.
  - destruct (post_schools_cases req' w)
      as [(tbl & vs & row & _ & Hs & _ & Hn & Hr & Ht & Ha & _)
         | (e & Hr & Ht & Ha & _)];
      rewrite Hr in Hresp; injection Hresp as <-; cbn.
    + split; [| done]. intros _. exists tbl, row.
      destruct (new_row_fields _ _ _ Hn)
        as (? & ? & ? & ? & ? & ? & ? & _ & _ & _ & _ & _ & _ & _ & _ & Hid & _).
      by split_and!.
    + by split.
  - destruct (error_handler_cases e req w) as (r & Hr & _ & _ & _ & H500).
    rewrite Hr in *. injection Hresp as <-. cbn. split; [| done].
    intros H201. destruct (decide (status r = 400)) as [H4 | H4]; [lia |].
    destruct (H500 H4) as [? _]. lia.
Qed.

(** X4: a create request changes the table only by answering 201: then
    exactly one row is appended, its id is the [schoolId] of the answer
    and the former next id; with any other answer the table and the next
    id are untouched. *)
Theorem create_appends_one_row_or_nothing (req : Request) (w : World)
    (resp : Response) :
  fst (app_post_schools req w) = inr resp →
  let w' := snd (app_post_schools req w) in
  (status resp = 201 →
     ∃ tbl row,
       schools w = Some tbl ∧ schools w' = Some (tbl ++ [row])%list ∧
       json resp = Created true "School added successfully" (Row.id row) ∧
       Row.id row = auto_increment w ∧
       auto_increment w' = auto_increment w + 1) ∧
  (status resp ≠ 201 →
     schools w' = schools w ∧ auto_increment w' = auto_increment w).
Proof. exact (create_cases req w resp). Qed.

Lemma create_appends_one_row_or_nothing_witness :
  ∃ tbl row,
    schools healthy = Some tbl ∧
    schools (snd (app_post_schools (request 1 None) healthy)) =
      Some (tbl ++ [row])%list.
Proof.
  destruct (create_appends_one_row_or_nothing (request 1 None) healthy
              (res_status_json 201
                 (Created true "School added successfully" 4)) eq_refl)
    as [H _].
  destruct (H eq_refl) as (tbl & row & H1 & H2 & _).
  exists tbl, row. split; [exact H1 | exact H2].
Defined.

Lemma bound_insert_params (req : Request) (vs : list JsValue) :
  bound (insert_params req) = inr vs →
  ∃ n a c s k e,
    body req !! "name" = Some n ∧ body req !! "address" = Some a ∧
    body req !! "city" = Some c ∧ body req !! "state" = Some s ∧
    body req !! "contact" = Some k ∧ body req !! "email_id" = Some e ∧
    vs = [JsString n; JsString a; JsString c; JsString s; JsString k;
          match file req with
          | Some f => JsString ("/schoolImages/" +:+ filename f)
          | None => JsNull
          end;
          JsString e].
Proof.
  unfold bound, insert_params.
  destruct (body req !! "name") as [n |]; [| done].
  destruct (body req !! "address") as [a |]; [| done].
  destruct (body req !! "city") as [c |]; [| done].
  destruct (body req !! "state") as [s |]; [| done].
  destruct (body req !! "contact") as [k |]; [| done].
  destruct (body req !! "email_id") as [e |]; [| done].
  cbn. intros [= <-]. by exists n, a, c, s, k, e.
Qed.

(** What [upload.single] leaves in [req.file]. *)
Lemma upload_single_file (req req' : Request) (w : World) :
  file req = None →
  fst (upload_single "image" req w) = inr req' →
  match part req with
  | None => file req' = None
  | Some f =>
    if String.eqb (originalname f) "" then file req' = None
    else
      fieldname f = "image" ∧ fileFilter f = inr true ∧
      (stream_bytes f ≤ fileSize)%Z ∧
      file req' =
        Some {| destination := storage_destination;
                filename :=
                  "school-" +:+
                  (show_Z (date_now w) +:+ "-" +:+ show_Z (random w)) +:+
                  Path.extname (originalname f) |}
  end.
Proof.
  intros Hf. run. destruct (part req) as [f |]; [| by intros [= <-]].
  destruct (String.eqb (originalname f) ""); [by intros [= <-] |].
  destruct (String.eqb_spec (fieldname f) "image") as [Hfield | ?]; [| done].
  cbn. destruct (fileFilter f) as [e | [|]] eqn:Hff; try done.
  - destruct (Z.ltb_spec fileSize (stream_bytes f)); [done |].
    intros [= <-]. by split_and!.
  - unfold fileFilter in Hff. by destruct (_ && _)%bool.
Qed.

(** X5: the row a successful create request adds holds the text fields
    of the form as they were sent (and, when [contact] was sent as a
    plain decimal integer, that integer), the current timestamp as
    [created_at], and as [image] either null (no file in the request) or
    [/schoolImages/] followed by the name multer gave the file:
    [school-<Date.now()>-<random><extension of the original name>]. *)
Theorem created_row_holds_the_form (req : Request) (w : World)
    (resp : Response) :
  file req = None →
  fst (app_post_schools req w) = inr resp →
  status resp = 201 →
  ∃ tbl row k,
    schools (snd (app_post_schools req w)) = Some (tbl ++ [row])%list ∧
    body req !! "name" = Some (Row.name row) ∧
    body req !! "address" = Some (Row.address row) ∧
    body req !! "city" = Some (Row.city row) ∧
    body req !! "state" = Some (Row.state row) ∧
    body req !! "email_id" = Some (Row.email_id row) ∧
    body req !! "contact" = Some k ∧
    (∀ z, parse_int k = Some z → Row.contact row = z) ∧
    Row.created_at row = Some (current_timestamp w) ∧
    (part req = None → Row.image row = None) ∧
    (∀ f, part req = Some f → originalname f ≠ "" →
       Row.image row =
         Some ("/schoolImages/" +:+
               ("school-" +:+
                (show_Z (date_now w) +:+ "-" +:+ show_Z (random w)) +:+
                Path.extname (originalname f)))).
Proof.
  intros Hfile Hresp H201.
  destruct (app_post_schools_cases req w) as [(req' & Hup & Heq) | (e & _ & Heq)];
    rewrite Heq in *.
  2: { destruct (error_handler_cases e req w)
         as (r & Hr & _ & _ & _ & H500).
       rewrite Hr in Hresp. injection Hresp as <-.
       destruct (decide (status r = 400)) as [H4 | H4]; [lia |].
       destruct (H500 H4) as [? _]. lia. }
  destruct (upload_single_keeps_request _ _ _ Hup) as (_ & _ & _ & Hbody & _).
  pose proof (upload_single_file _ _ _ Hfile Hup) as Hf'.
  destruct (post_schools_cases req' w)
    as [(tbl & vs & row & _ & Hs & Hb & Hn & Hr & Ht & _) | (e & Hr & _)];
    rewrite Hr in Hresp; injection Hresp as <-; [| done].
  destruct (bound_insert_params _ _ Hb)
    as (n & a & c & s & k & e & Hn1 & Ha & Hc & Hst & Hk & He & ->).
  rewrite Hbody in *.
  destruct (new_row_fields _ _ _ Hn)
    as (v1 & v2 & v3 & v4 & v5 & v6 & v7 & Hvs
        & H1 & H2 & H3 & H4 & Hcontact & Himg & H7 & _ & Hts).
  injection Hvs as <- <- <- <- <- <- <-. cbn in H1, H2, H3, H4, H7.
  exists tbl, row, k. split_and!; try congruence.
  - intros z Hz. cbn in Hcontact. rewrite Hz in Hcontact.
    cbn in Hcontact. destruct (_ && _)%bool; congruence.
  - intros Hp. rewrite Hp in Hf'. rewrite Hf' in Himg. by rewrite <- Himg.
  - intros f Hp Hne. rewrite Hp in Hf'.
    destruct (String.eqb_spec (originalname f) ""); [done |].
    destruct Hf' as (_ & _ & _ & Hf'). rewrite Hf' in Himg.
    by rewrite <- Himg.
Qed.

Lemma created_row_holds_the_form_witness :
  ∃ tbl row k,
    schools (snd (app_post_schools (request 1 None) healthy))
      = Some (tbl ++ [row])%list ∧
    body (request 1 None) !! "name" = Some (Row.name row) ∧
    body (request 1 None) !! "contact" = Some k ∧
    (∀ z, parse_int k = Some z → Row.contact row = z).
Proof.
  destruct (created_row_holds_the_form (request 1 None) healthy
              (res_status_json 201
                 (Created true "School added successfully" 4))
              eq_refl eq_refl eq_refl)
    as (tbl & row & k & H1 & H2 & _ & _ & _ & _ & H3 & H4 & _).
  exists tbl, row, k. repeat split; assumption.
Defined.

(** ** Bootstrap, case by case *)

Lemma initializeDatabase_cases (w : World) :
  let w' := snd (initializeDatabase w) in
  fst (initializeDatabase w) = inr tt ∧
  auto_increment w' = auto_increment w ∧
  listening w' = listening w ∧
  reachable w' = reachable w ∧ may_create w' = may_create w ∧
  current_timestamp w' = current_timestamp w ∧
  schools w' =
    match schools w with
    | Some tbl => Some tbl
    | None => if (reachable w && may_create w)%bool then Some [] else None
    end ∧
  checked_out w' =
    (if (reachable w && negb (may_create w))%bool
     then S (checked_out w) else checked_out w).
Proof.
  intros w'. subst w'. run.
  destruct (reachable w) eqn:Hr; cbn;
    [| destruct (schools w); by split_and!].
  destruct (may_create w) eqn:Hc; cbn; destruct (schools w) eqn:Hs; cbn;
    by split_and!.
Qed.

Lemma start_cases (w : World) :
  let w' := snd (start w) in
  auto_increment w' = auto_increment w ∧
  reachable w' = reachable w ∧ may_create w' = may_create w ∧
  current_timestamp w' = current_timestamp w ∧
  schools w' = schools (snd (initializeDatabase w)) ∧
  checked_out w' = checked_out (snd (initializeDatabase w)) ∧
  listening w' = true.
Proof.
  intros w'. subst w'. rewrite start_listens_after_init. cbn.
  destruct (initializeDatabase_cases w) as (_ & ? & _ & ? & ? & ? & _).
  by split_and!.
Qed.

(** No route touches what lies outside the server. *)
Lemma post_schools_keeps_env (req : Request) (w : World) :
  reachable (snd (post_schools req w)) = reachable w ∧
  current_timestamp (snd (post_schools req w)) = current_timestamp w.
Proof.
  run. destruct (reachable w) eqn:Hr; cbn; [| done].
  destruct (bound _); cbn; [done |].
  destruct (schools w); cbn; [| done].
  by destruct (new_row _ _).
Qed.

Lemma app_post_schools_keeps_env (req : Request) (w : World) :
  reachable (snd (app_post_schools req w)) = reachable w ∧
  current_timestamp (snd (app_post_schools req w)) = current_timestamp w.
Proof.
  destruct (app_post_schools_cases req w) as [(req' & _ & ->) | (e & _ & ->)].
  - apply post_schools_keeps_env.
  - by destruct (error_handler_cases e req w) as (r & -> & _).
Qed.

(** ** Create, then read *)

Lemma filter_fresh_id (tbl : list Row.t) (row : Row.t) :
  Forall (λ r, (Row.id r < Row.id row)%Z) tbl →
  filter (has_id (Row.id row)) (tbl ++ [row])%list = [row].
Proof.
  intros Hall. rewrite filter_app.
  assert (filter (has_id (Row.id row)) tbl = []) as ->.
  { induction Hall as [|r l Hlt _ IH]; [done |].
    rewrite filter_cons, IH.
    destruct (decide (has_id (Row.id row) r)) as [Hid |]; [| done].
    unfold has_id in Hid. lia. }
  rewrite app_nil_l, filter_cons, filter_nil.
  by destruct (decide (has_id (Row.id row) row)).
Qed.

(** X6: on a table whose ids are below the next id, a record that was
    just created can be fetched: a lookup of the [schoolId] the create
    request answered returns 200 with that very row, its image made
    absolute for the asking host. *)
Theorem created_school_can_be_fetched (req : Request) (w : World)
    (resp : Response) :
  ids_fresh w →
  fst (app_post_schools req w) = inr resp →
  status resp = 201 →
  ∃ tbl row,
    schools (snd (app_post_schools req w)) = Some (tbl ++ [row])%list ∧
    json resp = Created true "School added successfully" (Row.id row) ∧
    ∀ req2, params_id req2 = Row.id row →
      fst (app_get_school req2 (snd (app_post_schools req w))) =
        inr (res_json (SchoolOne true (publish req2 (to_object row)))).
Proof.
  intros Hfresh Hresp H201.
  destruct (create_cases req w resp Hresp) as [Hok _].
  destruct (Hok H201) as (tbl & row & Hs & Hs' & Hj & Hid & _).
  exists tbl, row. split_and!; try done.
  intros req2 Hreq2.
  assert (reachable w = true) as Hr.
  { destruct (reachable w) eqn:Hr; [done |]. exfalso.
    destruct (app_post_schools_cases req w)
      as [(req' & _ & Heq) | (e & _ & Heq)]; rewrite Heq in *.
    - destruct (post_schools_cases req' w)
        as [(? & ? & ? & Hr' & _) | (e & Hr' & _)]; [congruence |].
      rewrite Hr' in Hresp. injection Hresp as <-. cbn in H201. lia.
    - destruct (error_handler_cases e req w)
        as (r & Hr' & _ & _ & _ & H500).
      rewrite Hr' in Hresp. injection Hresp as <-.
      destruct (decide (status r = 400)) as [H4 | H4]; [lia |].
      destruct (H500 H4) as [? _]. lia. }
  destruct (app_post_schools_keeps_env req w) as [Hr' _].
  rewrite Hr in Hr'.
  unfold app_get_school at 1.
  destruct (get_school_ok req2 _ _ Hr' Hs') as (-> & _).
  unfold ids_fresh in Hfresh. rewrite Hs in Hfresh. destruct Hfresh as [_ Hlt].
  rewrite Hreq2, filter_fresh_id; [done |]. by rewrite Hid.
Qed.

Lemma created_school_can_be_fetched_witness :
  ∃ tbl row,
    schools (snd (app_post_schools (request 1 None) healthy))
      = Some (tbl ++ [row])%list ∧
    json (res_status_json 201 (Created true "School added successfully" 4))
      = Created true "School added successfully" (Row.id row).
Proof.
  assert (ids_fresh healthy) as Hfresh.
  { split; [| repeat constructor].
    apply (bool_decide_unpack (NoDup (Row.id <$> [school1; school2]))).
    vm_compute. exact I. }
  destruct (created_school_can_be_fetched (request 1 None) healthy
              (res_status_json 201
                 (Created true "School added successfully" 4))
              Hfresh eq_refl eq_refl)
    as (tbl & row & H1 & H2 & _).
  exists tbl, row. split; assumption.
Defined.

(** A create request answered 201 went through the pool, and stamped its
    row with the current timestamp. *)
Lemma created_row_holds_the_form_aux (req : Request) (w : World)
    (resp : Response) :
  fst (app_post_schools req w) = inr resp →
  status resp = 201 →
  reachable w = true ∧
  ∀ tbl row,
    schools (snd (app_post_schools req w)) = Some (tbl ++ [row])%list →
    Row.created_at row = Some (current_timestamp w).
Proof.
  intros Hresp H201.
  destruct (app_post_schools_cases req w) as [(req' & _ & Heq) | (e & _ & Heq)];
    rewrite Heq in *.
  - destruct (post_schools_cases req' w)
      as [(tbl & vs & row & Hr & Hs & _ & Hn & _ & Ht & _) | (e & Hr & _)].
    + split; [done |]. intros tbl' row' Ht'. rewrite Ht in Ht'.
      injection Ht' as Ht'. apply app_inj_tail in Ht' as [_ <-].
      by destruct (new_row_fields _ _ _ Hn)
        as (? & ? & ? & ? & ? & ? & ? & _ & _ & _ & _ & _ & _ & _ & _ & _ & ?).
    + rewrite Hr in Hresp. injection Hresp as <-. cbn in H201. lia.
  - destruct (error_handler_cases e req w)
      as (r & Hr & _ & _ & _ & H500).
    rewrite Hr in Hresp. injection Hresp as <-.
    destruct (decide (status r = 400)) as [H4 | H4]; [lia |].
    destruct (H500 H4) as [? _]. lia.
Qed.

Lemma newest_row_heads_the_sort (tbl : list Row.t) (row : Row.t) (t : Z) :
  Row.created_at row = Some t →
  Forall (λ r, ∀ t', Row.created_at r = Some t' → (t' < t)%Z) tbl →
  ∃ rest, merge_sort newer_first (tbl ++ [row]) = row :: rest.
Proof.
  intros Hrow Hold.
  pose proof (merge_sort_Permutation newer_first (tbl ++ [row])) as Hperm.
  pose proof (StronglySorted_merge_sort newer_first (tbl ++ [row])) as Hsort.
  destruct (merge_sort newer_first (tbl ++ [row])) as [|h rest].
  { apply Permutation_nil_l in Hperm. by destruct tbl. }
  assert (h ∈ (tbl ++ [row])%list) as Hh by (rewrite <- Hperm; by left).
  assert (row ∈ h :: rest) as Hr.
  { rewrite Hperm. apply elem_of_app. right. by apply list_elem_of_singleton. }
  apply elem_of_app in Hh as [Hh | Hh].
  2: { apply list_elem_of_singleton in Hh as ->. by exists rest. }
  apply elem_of_cons in Hr as [-> | Hr]; [by exists rest |].
  exfalso. apply StronglySorted_inv in Hsort as [_ Hall].
  rewrite Forall_forall in Hall, Hold.
  specialize (Hall row Hr). specialize (Hold h Hh).
  unfold newer_first, ts_le in Hall. rewrite Hrow in Hall.
  destruct (Row.created_at h) as [t' |]; [| done].
  specialize (Hold t' eq_refl). lia.
Qed.

(** X7: after a successful create request the list contains the new
    record, and when every older row was created strictly before the
    current timestamp the new record comes first. *)
Theorem created_school_is_listed (req : Request) (w : World)
    (resp : Response) :
  fst (app_post_schools req w) = inr resp →
  status resp = 201 →
  let w' := snd (app_post_schools req w) in
  ∃ tbl row,
    schools w = Some tbl ∧
    json resp = Created true "School added successfully" (Row.id row) ∧
    ∀ req2, ∃ objs,
      fst (app_get_schools req2 w') = inr (res_json (SchoolList true objs)) ∧
      publish req2 (to_object row) ∈ objs ∧
      (Forall (λ r, ∀ t', Row.created_at r = Some t' →
                          (t' < current_timestamp w)%Z) tbl →
       head objs = Some (publish req2 (to_object row))).
Proof.
  intros Hresp H201 w'. subst w'.
  destruct (create_cases req w resp Hresp) as [Hok _].
  destruct (Hok H201) as (tbl & row & Hs & Hs' & Hj & Hid & _).
  destruct (created_row_holds_the_form_aux req w resp Hresp H201)
    as (Hr & Hts).
  exists tbl, row. split_and!; try done. intros req2.
  destruct (app_post_schools_keeps_env req w) as [Hr' _]. rewrite Hr in Hr'.
  destruct (get_schools_ok req2 _ _ Hr' Hs') as (Hres & _).
  eexists. split; [exact Hres |]. split.
  - rewrite <- list_fmap_compose. apply list_elem_of_fmap. exists row.
    split; [done |]. rewrite merge_sort_Permutation.
    apply elem_of_app. right. by apply list_elem_of_singleton.
  - intros Hold.
    specialize (Hts tbl row Hs').
    destruct (newest_row_heads_the_sort tbl row _ Hts Hold) as [rest ->].
    done.
Qed.

Lemma created_school_is_listed_witness :
  ∃ tbl row,
    schools healthy = Some tbl ∧
    json (res_status_json 201 (Created true "School added successfully" 4))
      = Created true "School added successfully" (Row.id row).
Proof.
  destruct (created_school_is_listed (request 1 None) healthy
              (res_status_json 201
                 (Created true "School added successfully" 4))
              eq_refl eq_refl)
    as (tbl & row & H1 & H2 & _).
  exists tbl, row. split; assumption.
Defined.

(** X8: a lookup answered 200 returns a record whose [id] is the id
    that was asked for. *)
Theorem fetched_school_has_the_requested_id (req : Request) (w : World)
    (obj : gmap string JsValue) :
  fst (app_get_school req w) = inr (res_json (SchoolOne true obj)) →
  obj !! "id" = Some (JsNumber (params_id req)).
Proof.
  unfold app_get_school. intros Hresp.
  destruct (get_school_cases req w)
    as (_ & _ & _ & [(tbl & _ & _ & Heq & _) | (e & Heq & _)]);
    rewrite Heq in Hresp; [| done].
  destruct (filter (has_id (params_id req)) tbl) as [|r rest] eqn:Hf; [done |].
  injection Hresp as <-.
  assert (r ∈ filter (has_id (params_id req)) tbl) as Hin
    by (rewrite Hf; by left).
  apply list_elem_of_filter in Hin as [Hid _]. unfold has_id in Hid.
  rewrite publish_frame by done. by rewrite <- Hid.
Qed.

Lemma fetched_school_has_the_requested_id_witness :
  publish (request 2 None) (to_object school2) !! "id" = Some (JsNumber 2).
Proof.
  apply (fetched_school_has_the_requested_id (request 2 None) healthy).
  reflexivity.
Defined.

(** ** The pool *)

(** X9: while the pool cannot hand out a connection, every route
    answers 500 with the pool's error as [error], acquires nothing and
    leaves the table alone. *)
Theorem unreachable_database_answers_500 (req : Request) (w : World) :
  reachable w = false → part req = None →
  fst (app_post_schools req w) =
    inr (res_status_json 500
           (Failure false "Failed to add school"
                    (Some "connect ECONNREFUSED"))) ∧
  fst (app_get_schools req w) =
    inr (res_status_json 500
           (Failure false "Failed to fetch schools"
                    (Some "connect ECONNREFUSED"))) ∧
  fst (app_get_school req w) =
    inr (res_status_json 500
           (Failure false "Failed to fetch school"
                    (Some "connect ECONNREFUSED"))) ∧
  Forall (λ w', checked_out w' = checked_out w ∧ schools w' = schools w)
    [snd (app_post_schools req w); snd (app_get_schools req w);
     snd (app_get_school req w)].
Proof.
  intros Hr Hp. run. rewrite Hp, Hr. cbn. split_and!; try done.
  rewrite !Forall_cons, Forall_nil. by split_and!.
Qed.

Lemma unreachable_database_answers_500_witness :
  fst (app_get_schools (request 1 None) (set_env
         {| env_reachable := false; env_may_create := true;
            env_timestamp := 500; env_now := 1700000500000;
            env_random := 9 |} healthy)) =
    inr (res_status_json 500
           (Failure false "Failed to fetch schools"
                    (Some "connect ECONNREFUSED"))).
Proof.
  apply (unreachable_database_answers_500 (request 1 None)); reflexivity.
Defined.

(** X10: a request that is not answered 500 has given its connection
    back: after a create answered 201 or 400 and after a read answered
    200 or 404 as many connections are checked out as before; no request
    ever leaves more than one behind. *)
Theorem connection_returned_unless_500 (req : Request) (w : World) :
  (∀ resp, fst (app_post_schools req w) = inr resp → status resp ≠ 500 →
     checked_out (snd (app_post_schools req w)) = checked_out w) ∧
  (∀ resp, fst (app_get_schools req w) = inr resp → status resp ≠ 500 →
     checked_out (snd (app_get_schools req w)) = checked_out w) ∧
  (∀ resp, fst (app_get_school req w) = inr resp → status resp ≠ 500 →
     checked_out (snd (app_get_school req w)) = checked_out w) ∧
  Forall (λ w', (checked_out w ≤ checked_out w' ≤ S (checked_out w))%nat)
    [snd (app_post_schools req w); snd (app_get_schools req w);
     snd (app_get_school req w)].
Proof.
  split_and!.
  - intros resp Hresp H5.
    destruct (app_post_schools_cases req w)
      as [(req' & _ & Heq) | (e & _ & Heq)]; rewrite Heq in *.
    + destruct (post_schools_cases req' w)
        as [(? & ? & ? & _ & _ & _ & _ & _ & _ & _ & ?) | (e & Hr & _)];
        [done |].
      rewrite Hr in Hresp. by injection Hresp as <-.
    + by destruct (error_handler_cases e req w) as (r & -> & _).
  - unfold app_get_schools. intros resp Hresp H5.
    destruct (get_schools_cases req w)
      as (_ & _ & _ & [(tbl & _ & _ & _ & ?) | (e & Hr & _)]); [done |].
    rewrite Hr in Hresp. by injection Hresp as <-.
  - unfold app_get_school. intros resp Hresp H5.
    destruct (get_school_cases req w)
      as (_ & _ & _ & [(tbl & _ & _ & _ & ?) | (e & Hr & _)]); [done |].
    rewrite Hr in Hresp. by injection Hresp as <-.
  - assert (checked_out w ≤ checked_out (snd (app_post_schools req w))
              ≤ S (checked_out w))%nat as Hpost.
    { destruct (app_post_schools_cases req w)
        as [(req' & _ & ->) | (e & _ & ->)].
      - destruct (post_schools_cases req' w)
          as [(? & ? & ? & _ & _ & _ & _ & _ & _ & _ & ?)
             | (? & _ & _ & _ & [? | ?] & _)]; lia.
      - destruct (error_handler_cases e req w) as (r & -> & _). cbn. lia. }
    assert (checked_out w ≤ checked_out (snd (app_get_schools req w))
              ≤ S (checked_out w))%nat as Hlist.
    { unfold app_get_schools. destruct (get_schools_cases req w)
        as (_ & _ & _ & [(tbl & _ & _ & _ & ?) | (e & _ & [? | ?] & _)]); lia. }
    assert (checked_out w ≤ checked_out (snd (app_get_school req w))
              ≤ S (checked_out w))%nat as Hone.
    { unfold app_get_school. destruct (get_school_cases req w)
        as (_ & _ & _ & [(tbl & _ & _ & _ & ?) | (e & _ & [? | ?] & _)]); lia. }
    by rewrite !Forall_cons, Forall_nil.
Qed.

(** ** Any sequence of requests *)

Lemma serve_table (c : Call) (w : World) :
  (schools (serve c w) = schools w ∧
   auto_increment (serve c w) = auto_increment w) ∨
  (schools w = None ∧ schools (serve c w) = Some [] ∧
   auto_increment (serve c w) = auto_increment w) ∨
  (∃ tbl row, schools w = Some tbl ∧
     schools (serve c w) = Some (tbl ++ [row])%list ∧
     Row.id row = auto_increment w ∧
     auto_increment (serve c w) = auto_increment w + 1).
Proof.
  destruct c as [| req | req | req | e]; cbn.
  - destruct (start_cases w) as (Ha & _ & _ & _ & Hs & _).
    destruct (initializeDatabase_cases w) as (_ & _ & _ & _ & _ & _ & Hs' & _).
    rewrite Hs, Hs', Ha. destruct (schools w) as [tbl |]; [by left |].
    destruct (reachable w && may_create w)%bool; [right; by left | by left].
  - destruct (fst (app_post_schools req w)) as [e | resp] eqn:Hresp.
    { exfalso.
      destruct (app_post_schools_cases req w)
        as [(req' & _ & Heq) | (e' & _ & Heq)]; rewrite Heq in Hresp.
      - destruct (post_schools_cases req' w)
          as [(? & ? & ? & _ & _ & _ & _ & Hr & _) | (? & Hr & _)];
          congruence.
      - destruct (error_handler_cases e' req w) as (r & Hr & _).
        rewrite Hr in Hresp. discriminate. }
    destruct (create_cases req w resp Hresp) as [Hok Hno].
    destruct (decide (status resp = 201)) as [H201 | H201].
    + destruct (Hok H201) as (tbl & row & ? & ? & _ & ? & ?).
      right. right. by exists tbl, row.
    + left. by apply Hno.
  - left. by destruct (get_schools_cases req w) as (? & ? & _).
  - left. by destruct (get_school_cases req w) as (? & ? & _).
  - by left.
Qed.

(** X11: ids stay unique.  If the ids of the table are pairwise distinct
    and below the next id, they still are after any sequence of
    bootstraps, create requests, reads and changes of the surroundings:
    no create request ever reuses an id. *)
Theorem ids_stay_fresh (cs : list Call) (w : World) :
  ids_fresh w → ids_fresh (serve_all cs w).
Proof.
  revert w. induction cs as [|c cs IH]; intros w Hw; [done |].
  change (serve_all (c :: cs) w) with (serve_all cs (serve c w)). apply IH. unfold ids_fresh in *.
  destruct (serve_table c w)
    as [(Hs & Ha) | [(Hn & Hs & Ha) | (tbl & row & Hs & Hs' & Hid & Ha)]].
  - by rewrite Hs, Ha.
  - rewrite Hs. split; constructor.
  - rewrite Hs', Ha. rewrite Hs in Hw. destruct Hw as [Hnd Hlt]. split.
    + rewrite fmap_app. apply NoDup_app. split_and!; [done | | ].
      * intros i Hi Hi'. apply list_elem_of_singleton in Hi'. subst i.
        apply list_elem_of_fmap in Hi as (r & Heq & Hr).
        rewrite Forall_forall in Hlt. specialize (Hlt r Hr). lia.
      * apply NoDup_singleton.
    + apply Forall_app. split.
      * eapply Forall_impl; [exact Hlt |]. cbn. intros. lia.
      * constructor; [lia | constructor].
Qed.

Lemma ids_stay_fresh_witness :
  ids_fresh (serve_all [PostSchools (request 1 None); GetSchools (request 1 None);
                        PostSchools (request 1 (Some big_png)); Boot]
                       healthy).
Proof.
  apply (ids_stay_fresh _ healthy).
  split; [| repeat constructor].
  apply (bool_decide_unpack (NoDup (Row.id <$> [school1; school2]))).
  vm_compute. exact I.
Defined.

(** X12: the table only grows.  Whatever sequence of bootstraps, create
    requests and reads is served, the rows that were in the table are
    still there afterwards, unchanged and in the same order, followed by
    the rows added since: the server never updates or deletes a row. *)
Theorem table_only_grows (cs : list Call) (w : World) (tbl : list Row.t) :
  schools w = Some tbl →
  ∃ added, schools (serve_all cs w) = Some (tbl ++ added)%list.
Proof.
  revert w tbl. induction cs as [|c cs IH]; intros w tbl Hs.
  { exists []. by rewrite app_nil_r. }
  change (serve_all (c :: cs) w) with (serve_all cs (serve c w)).
  destruct (serve_table c w)
    as [(Hs' & _) | [(Hn & _) | (tbl' & row & Hs1 & Hs' & _)]].
  - rewrite Hs in Hs'. by apply IH.
  - congruence.
  - rewrite Hs in Hs1. injection Hs1 as <-.
    destruct (IH _ _ Hs') as [added Hadd].
    exists (row :: added). rewrite Hadd. by rewrite <- app_assoc.
Qed.

Lemma table_only_grows_witness :
  ∃ added,
    schools (serve_all [PostSchools (request 1 None); Boot] healthy) =
      Some ([school1; school2] ++ added)%list.
Proof.
  apply (table_only_grows _ healthy). reflexivity.
Defined.

(** X13: a file sent under a field other than [image] stops the request
    in multer: the answer is 500 "Unexpected field", the route is not
    entered and the world is as before. *)
Theorem unexpected_field_answers_500 (req : Request) (w : World)
    (f : FilePart) :
  part req = Some f →
  originalname f ≠ "" →
  fieldname f ≠ "image" →
  app_post_schools req w =
    (inr (res_status_json 500 (Failure false "Unexpected field" None)), w).
Proof.
  intros Hp Hn Hf. run. rewrite Hp.
  destruct (String.eqb_spec (originalname f) ""); [done |].
  destruct (String.eqb_spec (fieldname f) "image"); [done |]. reflexivity.
Qed.

Lemma unexpected_field_answers_500_witness :
  app_post_schools
    (request 1 (Some {| fieldname := "photo"; originalname := "campus.png";
                        mimetype := "image/png"; stream_bytes := 10 |}))
    healthy =
    (inr (res_status_json 500 (Failure false "Unexpected field" None)),
     healthy).
Proof.
  apply (unexpected_field_answers_500 _ healthy
           {| fieldname := "photo"; originalname := "campus.png";
              mimetype := "image/png"; stream_bytes := 10 |});
    [reflexivity | discriminate | discriminate].
Defined.

(** ** Schema initialization *)

(** X14: [initializeDatabase] never throws and never touches an existing
    table: it creates the empty table exactly when the table is absent,
    the pool is reachable and the account may create it.  Running it a
    second time changes neither the table nor the next id. *)
Theorem initializeDatabase_creates_once (w : World) :
  let w1 := snd (initializeDatabase w) in
  let w2 := snd (initializeDatabase w1) in
  fst (initializeDatabase w) = inr tt ∧
  schools w1 =
    match schools w with
    | Some tbl => Some tbl
    | None => if (reachable w && may_create w)%bool then Some [] else None
    end ∧
  auto_increment w1 = auto_increment w ∧
  schools w2 = schools w1 ∧
  auto_increment w2 = auto_increment w1.
Proof.
  intros w1 w2. subst w1 w2.
  destruct (initializeDatabase_cases w)
    as (Hok & Ha & _ & Hr & Hc & _ & Hs & _).
  destruct (initializeDatabase_cases (snd (initializeDatabase w)))
    as (_ & Ha' & _ & _ & _ & _ & Hs' & _).
  split_and!; try done.
  rewrite Hs', Hr, Hc, Hs. destruct (schools w); [done |].
  by destruct (reachable w && may_create w)%bool eqn:Hb; rewrite ?Hb.
Qed.

(** X15: the connection of [initializeDatabase] is released when the
    [CREATE TABLE] statement succeeds and is kept when it throws; when
    the pool is unreachable none was acquired. *)
Theorem initializeDatabase_connection (w : World) :
  checked_out (snd (initializeDatabase w)) =
    (if (reachable w && negb (may_create w))%bool
     then S (checked_out w) else checked_out w) ∧
  checked_out (snd (start w)) = checked_out (snd (initializeDatabase w)).
Proof.
  destruct (initializeDatabase_cases w) as (_ & _ & _ & _ & _ & _ & _ & Hc).
  destruct (start_cases w) as (_ & _ & _ & _ & _ & Hc' & _).
  by split.
Qed.

(** ** Missing fields and known ids *)

(** X16: a create request whose form lacks one of the six text fields
    never reaches the database: the driver refuses the [undefined] bind
    parameter, the route answers 500 with the driver's message, no
    statement is executed and the table is as before. *)
Theorem missing_field_answers_500 (req : Request) (w : World) (k : string) :
  reachable w = true →
  k ∈ ["name"; "address"; "city"; "state"; "contact"; "email_id"] →
  body req !! k = None →
  fst (post_schools req w) =
    inr (res_status_json 500
           (Failure false "Failed to add school"
              (Some "Bind parameters must not contain undefined. To pass SQL NULL specify JS null"))) ∧
  schools (snd (post_schools req w)) = schools w ∧
  auto_increment (snd (post_schools req w)) = auto_increment w ∧
  Forall (λ ev, ∀ st, ev ≠ Executed st)
    (drop (length (trace w)) (trace (snd (post_schools req w)))).
Proof.
  intros Hr Hk Hnone.
  assert (bound (insert_params req) =
          inl (Error "Bind parameters must not contain undefined. To pass SQL NULL specify JS null"))
    as Hb.
  { unfold bound, insert_params.
    repeat (apply elem_of_cons in Hk as [-> | Hk];
            [rewrite Hnone; cbn;
             repeat (match goal with
                     | |- context [body req !! ?x] =>
                       destruct (body req !! x); cbn
                     end); done |]).
    by apply elem_of_nil in Hk. }
  unfold insert_params in Hb. run. rewrite Hr. cbn. rewrite Hb. cbn.
  split_and!; try done.
  rewrite <- app_assoc, drop_app_length. by repeat constructor.
Qed.

Lemma missing_field_answers_500_witness :
  schools (snd (post_schools
                  {| protocol := "http"; host := "localhost:3001";
                     params_id := 0; body := delete "city" form;
                     part := None; file := None |} healthy)) =
    schools healthy.
Proof.
  apply (missing_field_answers_500 _ healthy "city");
    [reflexivity | | reflexivity].
  apply elem_of_cons. right. apply elem_of_cons. right.
  apply elem_of_cons. by left.
Defined.

Lemma filter_unique_id (tbl : list Row.t) (r : Row.t) :
  NoDup (Row.id <$> tbl) → r ∈ tbl →
  filter (has_id (Row.id r)) tbl = [r].
Proof.
  induction tbl as [|x tbl IH]; intros Hnd Hin; [by apply elem_of_nil in Hin |].
  rewrite fmap_cons in Hnd. apply NoDup_cons in Hnd as [Hx Hnd].
  rewrite filter_cons.
  apply elem_of_cons in Hin as [-> | Hin].
  - destruct (decide (has_id (Row.id x) x)) as [_ | Hno]; [| by destruct Hno].
    f_equal. clear IH Hnd. induction tbl as [|y tbl IH]; [done |].
    rewrite filter_cons.
    destruct (decide (has_id (Row.id x) y)) as [Hy | _].
    + exfalso. apply Hx. rewrite fmap_cons, <- Hy. by left.
    + apply IH. intros Hin. apply Hx. rewrite fmap_cons. by right.
  - destruct (decide (has_id (Row.id r) x)) as [Hy | _].
    + exfalso. apply Hx. unfold has_id in Hy. rewrite Hy.
      apply list_elem_of_fmap. by exists r.
    + by apply IH.
Qed.

(** X17: every stored record can be fetched by its id: on a table with
    pairwise distinct ids, a lookup of the id of a row answers 200 with
    that row. *)
Theorem stored_school_is_found_by_id (req : Request) (w : World)
    (tbl : list Row.t) (r : Row.t) :
  reachable w = true → schools w = Some tbl →
  NoDup (Row.id <$> tbl) → r ∈ tbl → params_id req = Row.id r →
  fst (app_get_school req w) =
    inr (res_json (SchoolOne true (publish req (to_object r)))).
Proof.
  intros Hr Hs Hnd Hin Hid. unfold app_get_school.
  destruct (get_school_ok req w tbl Hr Hs) as (-> & _).
  by rewrite Hid, filter_unique_id.
Qed.

Lemma stored_school_is_found_by_id_witness :
  fst (app_get_school (request 2 None) healthy) =
    inr (res_json (SchoolOne true
                     (publish (request 2 None) (to_object school2)))).
Proof.
  apply (stored_school_is_found_by_id (request 2 None) healthy
           [school1; school2] school2);
    [reflexivity | reflexivity | | | reflexivity].
  - apply (bool_decide_unpack (NoDup (Row.id <$> [school1; school2]))).
    vm_compute. exact I.
  - apply elem_of_cons. right. apply elem_of_cons. by left.
Defined.

(** ** File names and extensions *)


Lemma scan_inv_found (st : Path.Scan) (suf : list ascii) :
  scan_inv st 0 suf → scan_found st suf.
Proof.
  intros (_ & _ & _ & H4).
  destruct (decide (Path.startDot st = -1)) as [? | Hne]; [by left |].
  right. destruct (H4 Hne) as (a & e & t & ? & ? & ? & ?).
  exists a, e, t. split_and!; [done | done | lia | lia].
Qed.

Lemma scan_keeps_inv (rpre suf : list ascii) (st : Path.Scan) :
  scan_inv st (Z.of_nat (length rpre)) suf →
  scan_found (Path.scan rpre (Z.of_nat (length rpre) - 1) st)
             (rev rpre ++ suf)%list.
Proof.
  revert suf st. induction rpre as [|c rest IH]; intros suf st Hinv.
  { by apply scan_inv_found. }
  replace (rev (c :: rest) ++ suf)%list with (rev rest ++ c :: suf)%list
    by (cbn [rev]; by rewrite <- app_assoc).
  replace (Z.of_nat (length (c :: rest)) - 1) with (Z.of_nat (length rest))
    by (cbn [length]; lia).
  assert (Z.of_nat (length (c :: rest)) = Z.of_nat (length rest) + 1) as Hlen
    by (cbn [length]; lia).
  rewrite Hlen in Hinv. destruct Hinv as (H1 & H2 & H3 & H4).
  cbn [Path.scan].
  destruct (Ascii.eqb_spec c Path.CHAR_FORWARD_SLASH) as [-> | Hslash].
  - destruct (Path.matchedSlash st) eqn:Hms; cbn [negb].
    + assert (Path.end_ st = -1) as Hend.
      { destruct (decide (Path.end_ st = -1)); [done |].
        by specialize (H2 ltac:(done)). }
      destruct (H1 Hend) as [Hsd _].
      apply IH. split_and!; try done; intros; congruence.
    + cbn. destruct (decide (Path.startDot st = -1)) as [? | Hne]; [by left |].
      right. cbn. destruct (H4 Hne) as (a & e & t & -> & ? & ? & ?).
      exists (rev rest ++ Path.CHAR_FORWARD_SLASH :: a)%list, e, t.
      assert (Z.of_nat (length (rev rest ++ Path.CHAR_FORWARD_SLASH :: a)) =
              Z.of_nat (length rest) + 1 + Z.of_nat (length a)) as Hl.
      { rewrite length_app, length_rev. cbn [length]. lia. }
      rewrite Hl. split; [| by split_and!].
      apply (app_assoc (rev rest) (Path.CHAR_FORWARD_SLASH :: a)).
  - apply IH.
    destruct (Z.eqb_spec (Path.end_ st) (-1)) as [Hend | Hend].
    + destruct (H1 Hend) as [Hsd Hms].
      destruct (Ascii.eqb_spec c Path.CHAR_DOT) as [-> | Hdot]; cbn.
      * rewrite Hsd. cbn. split_and!; cbn; try lia; try done.
        intros _. exists [], [], suf. split_and!; cbn; try done; lia.
      * rewrite Hsd. cbn. split_and!; cbn; try lia; try done.
        intros _ _. exists [c], suf. split_and!; cbn; try done; try lia.
        by repeat constructor.
    + specialize (H2 Hend).
      destruct (Ascii.eqb_spec c Path.CHAR_DOT) as [-> | Hdot].
      * destruct (Z.eqb_spec (Path.startDot st) (-1)) as [Hsd | Hsd].
        -- destruct (H3 Hsd Hend) as (e & t & -> & He & Hen).
           split_and!; cbn; try lia; try done.
           intros _. exists [], e, t. split_and!; cbn; try done; lia.
        -- destruct (H4 Hsd) as (a & e & t & -> & He & Hs & Hen).
           destruct (negb _); (split_and!; cbn; try lia; try done; intros _;
             exists (Path.CHAR_DOT :: a), e, t;
             split_and!; cbn [length app]; try done; lia).
      * destruct (Z.eqb_spec (Path.startDot st) (-1)) as [Hsd | Hsd]; cbn [negb].
        -- destruct (H3 Hsd Hend) as (e & t & -> & He & Hen).
           split_and!; cbn; try lia; try done.
           intros _ _. exists (c :: e), t.
           split_and!; cbn [length app]; try done; try lia.
           by constructor.
        -- destruct (H4 Hsd) as (a & e & t & -> & He & Hs & Hen).
           split_and!; cbn; try lia; try done. intros _.
           exists (c :: a), e, t.
           split_and!; cbn [length app]; try done; lia.
Qed.

(** Strings as lists of characters. *)
Lemma chars_length (s : string) :
  length (Js.chars s) = String.length s.
Proof. induction s as [|c s IH]; cbn; congruence. Qed.

Lemma chars_append (a b : string) :
  Js.chars (a +:+ b) = (Js.chars a ++ Js.chars b)%list.
Proof.
  induction a as [|c a IH]; [done |].
  rewrite append_cons. cbn. by rewrite IH.
Qed.

Lemma chars_of_list (l : list ascii) :
  Js.chars (string_of_list_ascii l) = l.
Proof. induction l as [|c l IH]; cbn; congruence. Qed.

Lemma of_list_chars (s : string) :
  string_of_list_ascii (Js.chars s) = s.
Proof. induction s as [|c s IH]; cbn; congruence. Qed.

Lemma chars_inj (s1 s2 : string) : Js.chars s1 = Js.chars s2 → s1 = s2.
Proof. intros H. by rewrite <- (of_list_chars s1), H, of_list_chars. Qed.

Lemma substring_chars (a m t : list ascii) (p : string) :
  Js.chars p = (a ++ m ++ t)%list →
  String.substring (length a) (length m) p = string_of_list_ascii m.
Proof.
  revert p. induction a as [|c a IH]; intros p Hp.
  - cbn in Hp. revert p Hp. induction m as [|c m IHm]; intros p Hp.
    + by destruct p.
    + destruct p as [|d p]; [done |]. cbn in Hp. injection Hp as -> Hp.
      cbn. f_equal. by apply IHm.
  - destruct p as [|d p]; [done |]. cbn in Hp. injection Hp as -> Hp.
    cbn. by apply IH.
Qed.

Lemma scan_of_path (p : string) :
  scan_found
    (Path.scan (rev (Js.chars p)) (Z.of_nat (String.length p) - 1) Path.scan0)
    (Js.chars p).
Proof.
  pose proof (scan_keeps_inv (rev (Js.chars p)) [] Path.scan0) as H.
  rewrite length_rev, chars_length, rev_involutive, app_nil_r in H.
  apply H. unfold scan_inv. cbn. split_and!; done.
Qed.

(** The two forms of an extension. *)
Lemma extname_cases (p : string) :
  Path.extname p = "" ∨
  ∃ e, Path.extname p = String Path.CHAR_DOT e ∧
       Forall plain (Js.chars e) ∧
       ∃ pre post, p = pre +:+ String Path.CHAR_DOT e +:+ post.
Proof.
  unfold Path.extname.
  destruct (scan_of_path p) as [Hsd | (a & e & t & Hp & He & Hsd & Hen)].
  { left. by rewrite Hsd. }
  destruct (_ || _)%bool; [by left |]. right.
  exists (string_of_list_ascii e).
  unfold Js.slice. rewrite Hsd, Hen.
  replace (Z.to_nat (Z.of_nat (length a))) with (length a) by lia.
  replace (Z.to_nat (Z.of_nat (length a) + 1 + Z.of_nat (length e)
                     - Z.of_nat (length a)))
    with (length (Path.CHAR_DOT :: e)) by (cbn [length]; lia).
  rewrite (substring_chars a (Path.CHAR_DOT :: e) t p Hp).
  split; [done |]. rewrite chars_of_list. split; [done |].
  exists (string_of_list_ascii a), (string_of_list_ascii t).
  apply chars_inj. rewrite !chars_append. cbn.
  by rewrite !chars_of_list.
Qed.

(** X18: [path.extname] answers the empty string or a dot followed by
    characters that are neither dots nor separators, and what it answers
    is a piece of the path. *)
Theorem extname_shape (p : string) :
  Path.extname p = "" ∨
  ∃ e, Path.extname p = String Path.CHAR_DOT e ∧
       Forall plain (Js.chars e) ∧
       ∃ pre post, p = pre +:+ String Path.CHAR_DOT e +:+ post.
Proof. exact (extname_cases p). Qed.

Lemma scan_without_dot (rpre : list ascii) (i : Z) (st : Path.Scan) :
  Path.startDot st = -1 →
  Forall (λ c, c ≠ Path.CHAR_DOT) rpre →
  Path.startDot (Path.scan rpre i st) = -1.
Proof.
  revert i st. induction rpre as [|c rest IH]; intros i st Hsd Hall; [done |].
  apply Forall_cons in Hall as [Hc Hall]. cbn [Path.scan].
  destruct (Ascii.eqb c Path.CHAR_FORWARD_SLASH).
  - destruct (negb _); [done | by apply IH].
  - apply IH; [| done].
    destruct (Ascii.eqb_spec c Path.CHAR_DOT) as [? | _]; [done |].
    destruct (Z.eqb (Path.end_ st) (-1)); cbn; by rewrite Hsd.
Qed.

Lemma extname_without_dot (p : string) :
  Forall (λ c, c ≠ Path.CHAR_DOT) (Js.chars p) → Path.extname p = "".
Proof.
  intros Hall. unfold Path.extname.
  rewrite (scan_without_dot _ _ Path.scan0); [done | done |].
  by apply Forall_rev.
Qed.

(** X19: a file whose name contains no dot has no extension and is
    refused by the filter, whatever content type it declares. *)
Theorem file_without_extension_is_rejected (f : FilePart) :
  Forall (λ c, c ≠ Path.CHAR_DOT) (Js.chars (originalname f)) →
  Path.extname (originalname f) = "" ∧
  fileFilter f = inl (Error "Only image files are allowed").
Proof.
  intros Hall. pose proof (extname_without_dot _ Hall) as Hext.
  split; [done |]. unfold fileFilter. rewrite Hext. cbn.
  by rewrite andb_false_r.
Qed.

Lemma file_without_extension_is_rejected_witness :
  fileFilter {| fieldname := "image"; originalname := "README";
                mimetype := "image/png"; stream_bytes := 10 |} =
    inl (Error "Only image files are allowed").
Proof.
  apply (file_without_extension_is_rejected
           {| fieldname := "image"; originalname := "README";
              mimetype := "image/png"; stream_bytes := 10 |}).
  repeat constructor; discriminate.
Defined.

(** The scan of a path [stem.ext], character run by character run. *)
Lemma scan_plain_run (r rest : list ascii) (i en : Z) :
  Forall plain r → en ≠ -1 →
  Path.scan (r ++ rest) i
    {| Path.startDot := -1; Path.startPart := 0; Path.end_ := en;
       Path.matchedSlash := false; Path.preDotState := 0 |} =
  Path.scan rest (i - Z.of_nat (length r))
    {| Path.startDot := -1; Path.startPart := 0; Path.end_ := en;
       Path.matchedSlash := false; Path.preDotState := 0 |}.
Proof.
  intros Hr Hen. revert i. induction Hr as [|c r [Hs Hd] _ IH]; intros i.
  { cbn. f_equal. lia. }
  cbn [app Path.scan Path.end_ Path.startDot].
  destruct (Ascii.eqb_spec c Path.CHAR_FORWARD_SLASH); [done |].
  destruct (Ascii.eqb_spec c Path.CHAR_DOT); [done |].
  destruct (Z.eqb_spec en (-1)); [done |]. cbn.
  rewrite IH. f_equal. cbn [length]. lia.
Qed.

Lemma scan_extension (e rest : list ascii) (i : Z) :
  Forall plain e → (0 ≤ i)%Z →
  Path.scan (e ++ Path.CHAR_DOT :: rest) i Path.scan0 =
  Path.scan rest (i - Z.of_nat (length e) - 1)
    {| Path.startDot := i - Z.of_nat (length e); Path.startPart := 0;
       Path.end_ := i + 1; Path.matchedSlash := false;
       Path.preDotState := 0 |}.
Proof.
  intros He Hi. destruct He as [|c e [Hs Hd] He].
  - cbn. f_equal; [lia |]. f_equal. lia.
  - cbn [app Path.scan]. unfold Path.scan0 at 1. cbn [Path.end_ Path.startDot].
    destruct (Ascii.eqb_spec c Path.CHAR_FORWARD_SLASH); [done |].
    destruct (Ascii.eqb_spec c Path.CHAR_DOT); [done |]. cbn.
    rewrite scan_plain_run by (done || lia).
    cbn [Path.scan Path.end_ Path.startDot]. cbn.
    destruct (Z.eqb_spec (i + 1) (-1)); [lia |]. cbn.
    f_equal; [cbn [length]; lia |]. f_equal. cbn [length]. lia.
Qed.

Lemma scan_stem (s : list ascii) (i sd en pd : Z) :
  Forall plain s → sd ≠ -1 → en ≠ -1 →
  Path.scan s i
    {| Path.startDot := sd; Path.startPart := 0; Path.end_ := en;
       Path.matchedSlash := false; Path.preDotState := pd |} =
    {| Path.startDot := sd; Path.startPart := 0; Path.end_ := en;
       Path.matchedSlash := false;
       Path.preDotState := match s with [] => pd | _ => -1 end |}.
Proof.
  intros Hs Hsd Hen. revert i pd.
  induction Hs as [|c s [Hsl Hd] _ IH]; intros i pd; [done |].
  cbn [Path.scan Path.end_ Path.startDot].
  destruct (Ascii.eqb_spec c Path.CHAR_FORWARD_SLASH); [done |].
  destruct (Ascii.eqb_spec c Path.CHAR_DOT); [done |].
  destruct (Z.eqb_spec en (-1)); [done |]. cbn.
  destruct (Z.eqb_spec sd (-1)); [done |]. cbn.
  rewrite IH. by destruct s.
Qed.

Lemma extname_of_stem_dot_ext (stem e : string) :
  stem ≠ "" → Forall plain (Js.chars stem) → Forall plain (Js.chars e) →
  Path.extname (stem +:+ String Path.CHAR_DOT e) = String Path.CHAR_DOT e.
Proof.
  intros Hne Hstem He. unfold Path.extname.
  set (p := stem +:+ String Path.CHAR_DOT e).
  assert (Js.chars p = (Js.chars stem ++ Path.CHAR_DOT :: Js.chars e)%list)
    as Hp by (subst p; by rewrite chars_append).
  assert (Z.of_nat (String.length p) =
          Z.of_nat (length (Js.chars stem)) + 1
          + Z.of_nat (length (Js.chars e))) as Hlen.
  { rewrite <- chars_length, Hp, length_app. cbn [length]. lia. }
  rewrite Hp, rev_app_distr. cbn [rev]. rewrite <- app_assoc. cbn [app].
  rewrite scan_extension; [| by apply Forall_rev | lia].
  rewrite length_rev.
  rewrite scan_stem; [| by apply Forall_rev | lia | lia].
  assert (rev (Js.chars stem) ≠ []) as Hrs.
  { destruct stem; [done |]. cbn. by destruct (rev _). }
  destruct (rev (Js.chars stem)) as [|c0 r0] eqn:Hr0; [done |].
  cbn [Path.startDot Path.end_ Path.preDotState Path.startPart].
  destruct (Z.eqb_spec (Z.of_nat (String.length p) - 1
                        - Z.of_nat (length (Js.chars e))) (-1)); [lia |].
  destruct (Z.eqb_spec (Z.of_nat (String.length p) - 1 + 1) (-1)); [lia |].
  cbn. unfold Js.slice.
  replace (Z.to_nat (Z.of_nat (String.length p) - 1
                     - Z.of_nat (length (Js.chars e))))
    with (length (Js.chars stem)) by lia.
  replace (Z.to_nat (Z.of_nat (String.length p) - 1 + 1
                     - (Z.of_nat (String.length p) - 1
                        - Z.of_nat (length (Js.chars e)))))
    with (length (Path.CHAR_DOT :: Js.chars e)) by (cbn [length]; lia).
  rewrite (substring_chars (Js.chars stem) (Path.CHAR_DOT :: Js.chars e) [] p)
    by (by rewrite app_nil_r).
  cbn. by rewrite of_list_chars.
Qed.

(** Generated names: the digits and the sign of a number are plain. *)
Lemma uint_plain (d : Decimal.uint) :
  Forall plain (Js.chars (NilEmpty.string_of_uint d)).
Proof.
  induction d; cbn; repeat constructor; try done.
Qed.

Lemma show_Z_plain (n : Z) : Forall plain (Js.chars (show_Z n)).
Proof.
  unfold show_Z, NilZero.string_of_int, NilZero.string_of_uint.
  destruct (Z.to_int n) as [d | d].
  - destruct d; try apply (uint_plain (_ d)); by repeat constructor.
  - destruct d; cbn; repeat constructor; try done;
      try apply (uint_plain d).
Qed.

Lemma append_empty_r (s : string) : s +:+ "" = s.
Proof. induction s as [|c s IH]; [done |]. by rewrite append_cons, IH. Qed.

(** X20: the name multer stores a file under,
    [school-<Date.now()>-<random><extension>], has the extension of the
    original name: [path.extname] of the stored name is [path.extname] of
    the original, so a stored file passes the extension test of the
    filter exactly when the upload did. *)
Theorem stored_name_keeps_extension (f : FilePart) (w : World) :
  ∃ name,
    storage_filename f w = (inr name, w) ∧
    Path.extname name = Path.extname (originalname f) ∧
    String.prefix "school-" name = true ∧
    Js.test allowedTypes (Js.toLowerCase (Path.extname name)) =
      Js.test allowedTypes (extension f).
Proof.
  eexists. split; [reflexivity |].
  set (stem := "school-" +:+ (show_Z (date_now w) +:+ "-" +:+ show_Z (random w))).
  assert (Path.extname (stem +:+ Path.extname (originalname f)) =
          Path.extname (originalname f)) as Hext.
  { assert (Forall plain (Js.chars stem)) as Hstem.
    { subst stem. rewrite !chars_append. repeat apply Forall_app_2;
        try apply show_Z_plain; by repeat constructor. }
    destruct (extname_cases (originalname f)) as [-> | (e & -> & He & _)].
    - rewrite append_empty_r. apply extname_without_dot.
      eapply Forall_impl; [exact Hstem |]. by intros c [_ ?].
    - by apply extname_of_stem_dot_ext. }
  split_and!.
  - exact Hext.
  - apply prefix_spec. by eexists.
  - unfold extension. f_equal. f_equal. exact Hext.
Qed.

(** Lower case and the scan. *)
Lemma lower_ascii_class (c : ascii) :
  Ascii.eqb (Js.lower_ascii c) Path.CHAR_FORWARD_SLASH
    = Ascii.eqb c Path.CHAR_FORWARD_SLASH ∧
  Ascii.eqb (Js.lower_ascii c) Path.CHAR_DOT = Ascii.eqb c Path.CHAR_DOT.
Proof.
  destruct c as [[] [] [] [] [] [] [] []]; by vm_compute.
Qed.

Lemma lower_ascii_idem (c : ascii) :
  Js.lower_ascii (Js.lower_ascii c) = Js.lower_ascii c.
Proof.
  destruct c as [[] [] [] [] [] [] [] []]; by vm_compute.
Qed.

Lemma toLowerCase_idem (s : string) :
  Js.toLowerCase (Js.toLowerCase s) = Js.toLowerCase s.
Proof.
  induction s as [|c s IH]; [done |]. cbn. by rewrite lower_ascii_idem, IH.
Qed.

Lemma chars_toLowerCase (s : string) :
  Js.chars (Js.toLowerCase s) = Js.lower_ascii <$> Js.chars s.
Proof. induction s as [|c s IH]; [done |]. cbn. by rewrite IH. Qed.

Lemma length_toLowerCase (s : string) :
  String.length (Js.toLowerCase s) = String.length s.
Proof. induction s as [|c s IH]; [done |]. cbn. by rewrite IH. Qed.

Lemma substring_toLowerCase (n m : nat) (s : string) :
  String.substring n m (Js.toLowerCase s) =
  Js.toLowerCase (String.substring n m s).
Proof.
  revert n m. induction s as [|c s IH]; intros n m.
  - by destruct n, m.
  - destruct n as [|n]; cbn.
    + destruct m as [|m]; [done |]. cbn. by rewrite IH.
    + apply IH.
Qed.

Lemma scan_lower (l : list ascii) (i : Z) (st : Path.Scan) :
  Path.scan (Js.lower_ascii <$> l) i st = Path.scan l i st.
Proof.
  revert i st. induction l as [|c l IH]; intros i st; [done |].
  cbn [fmap list_fmap Path.scan].
  destruct (lower_ascii_class c) as [-> ->].
  destruct (Ascii.eqb c Path.CHAR_FORWARD_SLASH);
    [destruct (negb _); [done | apply IH] | apply IH].
Qed.

Lemma extname_toLowerCase (p : string) :
  Path.extname (Js.toLowerCase p) = Js.toLowerCase (Path.extname p).
Proof.
  unfold Path.extname.
  rewrite chars_toLowerCase, length_toLowerCase.
  change (Js.lower_ascii <$> Js.chars p) with (map Js.lower_ascii (Js.chars p)).
  rewrite <- map_rev.
  change (map Js.lower_ascii (rev (Js.chars p)))
    with (Js.lower_ascii <$> rev (Js.chars p)).
  rewrite scan_lower.
  destruct (_ || _)%bool; [done |]. unfold Js.slice.
  apply substring_toLowerCase.
Qed.

(** X21: the filter does not see the letter case of the file name: two
    files that declare the same content type and whose names differ only
    in case get the same verdict. *)
Theorem fileFilter_ignores_case_of_name (f g : FilePart) :
  mimetype f = mimetype g →
  Js.toLowerCase (originalname f) = Js.toLowerCase (originalname g) →
  fileFilter f = fileFilter g.
Proof.
  intros Hm Hn. unfold fileFilter.
  by rewrite <- !extname_toLowerCase, Hn, Hm.
Qed.

Lemma fileFilter_ignores_case_of_name_witness :
  fileFilter {| fieldname := "image"; originalname := "Campus.PNG";
                mimetype := "image/png"; stream_bytes := 10 |} =
  fileFilter {| fieldname := "image"; originalname := "campus.png";
                mimetype := "image/png"; stream_bytes := 10 |}.
Proof.
  apply (fileFilter_ignores_case_of_name
           {| fieldname := "image"; originalname := "Campus.PNG";
              mimetype := "image/png"; stream_bytes := 10 |}
           {| fieldname := "image"; originalname := "campus.png";
              mimetype := "image/png"; stream_bytes := 10 |});
    reflexivity.
Defined.

(** X22: a file of the allow-list is accepted: when the lower-cased
    extension is [.jpeg], [.jpg], [.png] or [.gif] and the declared
    content type is one of the four words, bare or as an [image/]
    subtype, the filter calls back with [true]. *)
Theorem allowed_image_is_accepted (f : FilePart) :
  extension_in_allow_list f →
  content_type_in_allow_list f →
  fileFilter f = inr true.
Proof.
  intros (a & Ha & Hext) (b & Hb & Hmime).
  unfold fileFilter. fold (extension f).
  assert (Js.test allowedTypes (extension f) = true) as ->.
  { apply test_spec. exists a. split; [done |]. exists ".", "".
    by rewrite Hext, append_empty_r. }
  assert (Js.test allowedTypes (mimetype f) = true) as ->.
  { apply test_spec. exists b. split; [done |].
    destruct Hmime as [-> | ->].
    - exists "", "". by rewrite append_empty_r.
    - exists "image/", "". by rewrite append_empty_r. }
  done.
Qed.

Lemma allowed_image_is_accepted_witness :
  fileFilter big_png = inr true.
Proof.
  apply (allowed_image_is_accepted big_png).
  - exists "png". split; [| reflexivity].
    apply elem_of_cons. right. apply elem_of_cons. right.
    apply elem_of_cons. by left.
  - exists "png". split; [| by right].
    apply elem_of_cons. right. apply elem_of_cons. right.
    apply elem_of_cons. by left.
Defined.

(** ** The image directory at startup *)

Lemma mkdir_recursive_spec (d : Fs.Dir) (n : nat) (dirs : gset Fs.Dir)
    (x : Fs.Dir) :
  x ∈ Fs.mkdir_recursive d n dirs ↔
  x ∈ dirs ∨ ∃ k, (k ≤ n)%nat ∧ x = take k d.
Proof.
  induction n as [|n IH]; cbn [Fs.mkdir_recursive].
  - rewrite elem_of_union, elem_of_singleton. split.
    + intros [-> | ?]; [right; exists 0%nat; by split | by left].
    + intros [? | (k & Hk & ->)]; [by right |].
      left. by replace k with 0%nat by lia.
  - rewrite elem_of_union, elem_of_singleton, IH. split.
    + intros [-> | [? | (k & Hk & ->)]].
      * right. exists (S n). by split.
      * by left.
      * right. exists k. split; [lia | done].
    + intros [? | (k & Hk & ->)]; [right; by left |].
      destruct (decide (k = S n)) as [-> | Hne]; [by left |].
      right. right. exists k. split; [lia | done].
Qed.

Lemma imagesDir_exists_after_startup (pr : Fs.Process) (dirs : gset Fs.Dir) :
  Fs.existsSync (Fs.imagesDir pr) (Fs.ensure_imagesDir pr dirs) = true.
Proof.
  unfold Fs.ensure_imagesDir.
  destruct (Fs.existsSync (Fs.imagesDir pr) dirs) eqn:Hex; cbn [negb]; [done |].
  unfold Fs.existsSync. apply bool_decide_eq_true_2.
  unfold Fs.mkdirSync. apply mkdir_recursive_spec. right.
  exists (length (Fs.imagesDir pr)). split; [done |]. by rewrite firstn_all.
Qed.

(** X23: the startup check leaves the image directory in place: after it
    [imagesDir] exists, every directory that existed before still does,
    and a second run changes nothing.  When it had to create the
    directory, every directory above it exists as well. *)
Theorem ensure_imagesDir_creates_and_keeps (pr : Fs.Process)
    (dirs : gset Fs.Dir) :
  let after := Fs.ensure_imagesDir pr dirs in
  Fs.existsSync (Fs.imagesDir pr) after = true ∧
  dirs ⊆ after ∧
  Fs.ensure_imagesDir pr after = after ∧
  (Fs.existsSync (Fs.imagesDir pr) dirs = false →
   ∀ k, take k (Fs.imagesDir pr) ∈ after).
Proof.
  intros after. subst after. unfold Fs.ensure_imagesDir.
  assert (Fs.imagesDir pr ∈ Fs.mkdirSync (Fs.imagesDir pr) dirs) as Hin.
  { unfold Fs.mkdirSync. apply mkdir_recursive_spec. right.
    exists (length (Fs.imagesDir pr)). split; [done |].
    by rewrite firstn_all. }
  destruct (Fs.existsSync (Fs.imagesDir pr) dirs) eqn:Hex; cbn [negb].
  - rewrite Hex. cbn [negb]. by split_and!.
  - assert (Fs.existsSync (Fs.imagesDir pr)
              (Fs.mkdirSync (Fs.imagesDir pr) dirs) = true) as Hex'.
    { unfold Fs.existsSync. by apply bool_decide_eq_true_2. }
    rewrite Hex'. cbn [negb]. split_and!; try done.
    + intros x Hx. unfold Fs.mkdirSync. apply mkdir_recursive_spec. by left.
    + intros _ k. unfold Fs.mkdirSync. apply mkdir_recursive_spec. right.
      destruct (decide (k ≤ length (Fs.imagesDir pr))%nat) as [Hk | Hk].
      * exists k. by split.
      * exists (length (Fs.imagesDir pr)). split; [done |].
        rewrite firstn_all. apply take_ge. lia.
Qed.

(** X24: started in the directory of [server.js], the server has its
    upload directory after startup: the directory multer writes to and
    [express.static] serves is the one the startup check ensured. *)
Theorem upload_dir_exists_when_started_in_place (pr : Fs.Process)
    (dirs : gset Fs.Dir) :
  Fs.cwd pr = Fs.__dirname pr →
  Fs.existsSync (Fs.upload_dir pr) (Fs.ensure_imagesDir pr dirs) = true ∧
  Fs.existsSync (Fs.static_dir pr) (Fs.ensure_imagesDir pr dirs) = true.
Proof.
  intros Hcwd.
  pose proof (imagesDir_exists_after_startup pr dirs) as Hex.
  pose proof (upload_dir_when_started_in_place pr Hcwd) as Hup.
  pose proof (static_dir_is_upload_dir pr) as Hst.
  split; [congruence |]. rewrite Hst. congruence.
Qed.

Lemma upload_dir_exists_when_started_in_place_witness :
  Fs.existsSync
    (Fs.upload_dir {| Fs.__dirname := ["srv"; "app"]; Fs.cwd := ["srv"; "app"] |})
    (Fs.ensure_imagesDir
       {| Fs.__dirname := ["srv"; "app"]; Fs.cwd := ["srv"; "app"] |} disk)
    = true.
Proof.
  apply (upload_dir_exists_when_started_in_place
           {| Fs.__dirname := ["srv"; "app"]; Fs.cwd := ["srv"; "app"] |} disk).
  reflexivity.
Defined.

(** X25: whatever the working directory, the directory served under
    [/schoolImages] is the directory multer writes to, so the path a row
    stores, [/schoolImages/<name>], leads to the file stored as
    [<name>]. *)
Theorem served_directory_is_upload_directory (pr : Fs.Process)
    (name : string) :
  Fs.static_dir pr = Fs.upload_dir pr ∧
  Fs.join (Fs.static_dir pr) ("/" +:+ name) = Fs.join (Fs.upload_dir pr) name.
Proof.
  split; [apply static_dir_is_upload_dir |].
  by rewrite static_dir_is_upload_dir.
Qed.

(** ** Image paths the server stores *)

Lemma post_schools_row_image (req : Request) (w : World) (tbl : list Row.t)
    (row : Row.t) :
  schools w = Some tbl →
  schools (snd (post_schools req w)) = Some (tbl ++ [row])%list →
  stored_by_server row.
Proof.
  intros Hs Hs'.
  destruct (post_schools_cases req w)
    as [(tbl' & vs & row' & _ & Hs1 & Hb & Hn & _ & Ht & _) | (e & _ & Ht & _)].
  - rewrite Hs in Hs1. injection Hs1 as <-. rewrite Ht in Hs'.
    injection Hs' as Hs'. apply app_inj_tail in Hs' as [_ ->].
    destruct (bound_insert_params _ _ Hb)
      as (? & ? & ? & ? & ? & ? & _ & _ & _ & _ & _ & _ & ->).
    destruct (new_row_fields _ _ _ Hn)
      as (? & ? & ? & ? & ? & v6 & ? & Hvs & _ & _ & _ & _ & _ & Himg & _).
    injection Hvs as _ _ _ _ _ <- _. unfold stored_by_server.
    rewrite <- Himg. destruct (file req) as [f |]; cbn; [right | by left].
    by exists (filename f).
  - rewrite Ht, Hs in Hs'. injection Hs' as Hs'.
    apply (f_equal length) in Hs'. rewrite length_app in Hs'. cbn in Hs'. lia.
Qed.

Lemma serve_keeps_images (c : Call) (w : World) :
  images_stored_by_server w → images_stored_by_server (serve c w).
Proof.
  unfold images_stored_by_server. intros Hw.
  destruct (serve_table c w)
    as [(Hs & _) | [(_ & Hs & _) | (tbl & row & Hs & Hs' & _)]].
  - by rewrite Hs.
  - rewrite Hs. constructor.
  - rewrite Hs'. rewrite Hs in Hw. apply Forall_app. split; [done |].
    constructor; [| constructor].
    destruct c as [| req | req | req | e]; cbn in Hs'.
    + destruct (start_cases w) as (_ & _ & _ & _ & Hst & _).
      destruct (initializeDatabase_cases w)
        as (_ & _ & _ & _ & _ & _ & Hi & _).
      rewrite Hst, Hi, Hs in Hs'. injection Hs' as Hs'.
      apply (f_equal length) in Hs'. rewrite length_app in Hs'. cbn in Hs'. lia.
    + destruct (app_post_schools_cases req w)
        as [(req' & _ & Heq) | (e & _ & Heq)]; rewrite Heq in Hs'.
      * by apply (post_schools_row_image req' w tbl).
      * destruct (error_handler_cases e req w) as (r & Hr & _).
        rewrite Hr in Hs'. cbn in Hs'. rewrite Hs in Hs'. injection Hs' as Hs'.
        apply (f_equal length) in Hs'. rewrite length_app in Hs'.
        cbn in Hs'. lia.
    + destruct (get_schools_cases req w) as (Hg & _).
      unfold app_get_schools in Hs'. rewrite Hg, Hs in Hs'.
      injection Hs' as Hs'. apply (f_equal length) in Hs'.
      rewrite length_app in Hs'. cbn in Hs'. lia.
    + destruct (get_school_cases req w) as (Hg & _).
      unfold app_get_school in Hs'. rewrite Hg, Hs in Hs'.
      injection Hs' as Hs'. apply (f_equal length) in Hs'.
      rewrite length_app in Hs'. cbn in Hs'. lia.
    + rewrite Hs in Hs'. injection Hs' as Hs'. apply (f_equal length) in Hs'.
      rewrite length_app in Hs'. cbn in Hs'. lia.
Qed.

Lemma serve_all_keeps_images (cs : list Call) (w : World) :
  images_stored_by_server w → images_stored_by_server (serve_all cs w).
Proof.
  revert w. induction cs as [|c cs IH]; intros w Hw; [done |].
  change (serve_all (c :: cs) w) with (serve_all cs (serve c w)).
  by apply IH, serve_keeps_images.
Qed.

Lemma stored_image_url (req : Request) (r : Row.t) :
  stored_by_server r →
  (∀ p, Row.image r = Some p →
        publish req (to_object r) !! "image" =
          Some (JsString ((protocol req +:+ "://" +:+ host req) +:+ p))) ∧
  (Row.image r = None → publish req (to_object r) !! "image" = Some JsNull).
Proof.
  intros Hst.
  destruct (published_image_cases req r) as (Hsome & Hnone & _).
  split; [| done]. intros p Hp. apply Hsome; [done |].
  destruct Hst as [Hn | [name Hn]]; rewrite Hp in Hn; [done |].
  injection Hn as ->. discriminate.
Qed.

(** C6: on every table the server has built (any sequence of bootstraps,
    create requests and reads, started without rows), each record the
    List and the GetById routes return has its stored image path, when it
    is not null, rewritten to the absolute URL made of the scheme and the
    host of the request followed by the stored path, and a null stored
    image returned as null. *)
Theorem stored_image_becomes_absolute_url (w0 : World) (cs : list Call)
    (req : Request) (tbl : list Row.t) :
  schools w0 = None ∨ schools w0 = Some [] →
  reachable (serve_all cs w0) = true →
  schools (serve_all cs w0) = Some tbl →
  let url_of (r : Row.t) (obj : gmap string JsValue) : Prop :=
    (∀ p, Row.image r = Some p →
          obj !! "image" =
            Some (JsString ((protocol req +:+ "://" +:+ host req) +:+ p))) ∧
    (Row.image r = None → obj !! "image" = Some JsNull) in
  (∃ objs,
     fst (app_get_schools req (serve_all cs w0)) =
       inr (res_json (SchoolList true objs)) ∧
     Forall2 url_of (merge_sort newer_first tbl) objs) ∧
  (∀ r rest, filter (has_id (params_id req)) tbl = r :: rest →
     ∃ obj,
       fst (app_get_school req (serve_all cs w0)) =
         inr (res_json (SchoolOne true obj)) ∧
       url_of r obj).
Proof.
  intros Hw0 Hr Hs url_of.
  assert (Forall stored_by_server tbl) as Hall.
  { assert (images_stored_by_server w0) as H0.
    { unfold images_stored_by_server. destruct Hw0 as [-> | ->]; [done |].
      constructor. }
    apply (serve_all_keeps_images cs) in H0.
    unfold images_stored_by_server in H0. by rewrite Hs in H0. }
  rewrite Forall_forall in Hall.
  destruct (read_routes_publish_images req _ tbl Hr Hs) as [Hlist Hone].
  split.
  - eexists. split; [exact Hlist |].
    rewrite <- list_fmap_compose. apply Forall2_fmap_diag.
    intros r Hin. apply stored_image_url, Hall.
    by rewrite merge_sort_Permutation in Hin.
  - intros r rest Hf. eexists. split; [exact (Hone r rest Hf) |].
    apply stored_image_url, Hall.
    assert (r ∈ filter (has_id (params_id req)) tbl) as Hin
      by (rewrite Hf; by left).
    by apply list_elem_of_filter in Hin as [_ ?].
Qed.

Lemma stored_image_becomes_absolute_url_witness :
  ∃ obj,
    fst (app_get_school (request 4 None)
           (serve_all [Boot; PostSchools (request 0 (Some campus_png))]
                      (world_with None true))) =
      inr (res_json (SchoolOne true obj)) ∧
    obj !! "image" =
      Some (JsString (("http" +:+ "://" +:+ "localhost:3001") +:+
                      "/schoolImages/school-1700000400000-7.png")).
Proof.
  destruct (stored_image_becomes_absolute_url (world_with None true)
              [Boot; PostSchools (request 0 (Some campus_png))]
              (request 4 None)
              [{| Row.id := 4; Row.name := "Dale School";
                  Row.address := "3 Dale Rd"; Row.city := "Hubli";
                  Row.state := "KA"; Row.contact := 9000000000;
                  Row.image :=
                    Some "/schoolImages/school-1700000400000-7.png";
                  Row.email_id := "dale@example.org";
                  Row.created_at := Some 400 |}]
              (or_introl eq_refl) eq_refl eq_refl) as [_ Hone].
  destruct (Hone _ [] eq_refl) as (obj & Hobj & Hurl & _).
  exists obj. split; [exact Hobj |]. exact (Hurl _ eq_refl).
Defined.
